(** * Verification of the deposit allocation engine (run.py)

    The engine allocates a sum of money over bank accounts with tiered
    interest rates.  This development embeds the functions of [run.py]:

    - [calculate_bank_interest]      the tier evaluator,
    - [create_optimization_problem]  the formulation of the linear program,
    - [simple_allocation]            the rate-sorted greedy allocator,
    - [optimize_deposits]            solve, aggregate, or fall back,
    - [optimize_with_salary_constraint]  the search over salary accounts.

    Modelling conventions.

    - Numbers are exact rationals ([Q]); comparisons are the boolean
      tests of the source ([<=], [>]), and results that the source
      computes are compared with [==] (equality of rationals) when they
      are numbers and with [=] when they are structures built by the same
      computation.  Rounding of machine floats is outside the model.
    - A Python [dict] is an association list in insertion order, since
      the source iterates over dictionaries and the order is observable.
    - Exceptions are values of [exn]; a function that can raise returns
      an [outcome].  A division whose divisor is zero raises
      [ZeroDivisionError], as it does for Python numbers.
    - The external solver ([scipy.optimize.linprog]) is a parameter of
      the development: a function from the formulated problem to either
      an exception or a report [(success, x)]. *)

From Stdlib Require Import String ZArith QArith Qminmax Lqa List Bool Arith Lia Permutation.
Import ListNotations.

Local Open Scope Q_scope.

(* ================================================================== *)
(** * Exceptions and outcomes *)

Inductive exn : Type :=
| ZeroDivisionError
| IndexError
| KeyError
| SolverError.

Inductive outcome (A : Type) : Type :=
| Ok (a : A)
| Raise (e : exn).

Arguments Ok {A} a.
Arguments Raise {A} e.

Definition bind {A B : Type} (m : outcome A) (k : A -> outcome B) : outcome B :=
  match m with
  | Ok a => k a
  | Raise e => Raise e
  end.

Notation "x <- m ;; k" := (bind m (fun x => k))
  (at level 61, m at next level, right associativity).
Notation "' pat <- m ;; k" := (bind m (fun x => match x with pat => k end))
  (at level 61, pat pattern, m at next level, right associativity).

(** [try: body except Exception: handler] *)
Definition try_except {A : Type} (body : outcome A) (handler : exn -> outcome A)
  : outcome A :=
  match body with
  | Ok a => Ok a
  | Raise e => handler e
  end.

(** [x / y] on Python numbers.  Both divisions of the source have a
    Python number as dividend when the divisor is zero: a solver that
    honours its bounds returns no deposit above the threshold for an
    investment of 0, and the accumulated interest is then the integer 0. *)
Definition py_div (x y : Q) : outcome Q :=
  if Qeq_bool y 0 then Raise ZeroDivisionError else Ok (x / y).

(** [x > y] of the source. *)
Definition Qgt_bool (x y : Q) : bool := negb (Qle_bool x y).

(* ================================================================== *)
(** * Dictionaries in insertion order *)

Section Dict.
Context {V : Type}.

Definition dict := list (string * V).

Fixpoint dict_get (k : string) (d : dict) : option V :=
  match d with
  | [] => None
  | (k', v) :: d' => if String.eqb k k' then Some v else dict_get k d'
  end.

(** [d[k] = v]: overwrite in place, or append a new key at the end. *)
Fixpoint dict_set (k : string) (v : V) (d : dict) : dict :=
  match d with
  | [] => [(k, v)]
  | (k', v') :: d' =>
      if String.eqb k k' then (k', v) :: d' else (k', v') :: dict_set k v d'
  end.

Definition dict_keys (d : dict) : list string := map fst d.

(** [d[k]] as an expression: [KeyError] when the key is absent. *)
Definition dict_item (k : string) (d : dict) : outcome V :=
  match dict_get k d with
  | Some v => Ok v
  | None => Raise KeyError
  end.
End Dict.

Arguments dict V : clear implicits.

(* ================================================================== *)
(** * Data model *)

(** One marginal bracket: [{'rate': r, 'amount': a}]. *)
Record tier : Type := mkTier { rate : Q; amount : Q }.

(** One row of a breakdown. *)
Record breakdown_entry : Type := mkEntry {
  amount_in_tier : Q;
  tier_rate : Q;
  tier_interest : Q;
  entry_monthly_interest : Q
}.

(** The dictionary returned by [calculate_bank_interest]. *)
Record interest_calc : Type := mkCalc {
  total_interest : Q;
  breakdown : list breakdown_entry
}.

(** One value of [allocations]. *)
Record allocation : Type := mkAlloc {
  deposit : Q;
  annual_interest : Q;
  monthly_interest : Q;
  alloc_breakdown : list breakdown_entry
}.

(** The key ['chosen_salary_bank'] of a result: absent, [None], or a name. *)
Inductive chosen : Type :=
| KeyAbsent
| ChosenNone
| ChosenBank (name : string).

Record opt_result : Type := mkResult {
  allocations : dict allocation;
  total_annual_interest : Q;
  total_monthly_interest : Q;
  effective_rate : Q;
  chosen_salary_bank : chosen
}.

(** One value of [banks_data]; the entries rebuilt by the salary search
    carry no ['other_requirements'] key. *)
Record bank_info : Type := mkBank {
  tiers : list tier;
  requires_salary : bool;
  other_requirements : option (list string)
}.

(* ================================================================== *)
(** * calculate_bank_interest *)

(** The [for tier in bank_tiers] loop; the state is
    [(total_interest, remaining_amount, breakdown)], and [break] ends the
    recursion with the state reached so far. *)
Fixpoint interest_loop (bank_tiers : list tier)
    (total : Q) (remaining_amount : Q) (bd : list breakdown_entry)
  : interest_calc :=
  match bank_tiers with
  | [] => mkCalc total bd
  | t :: rest =>
      let amount_in_tier := Qmin remaining_amount (amount t) in
      if Qle_bool amount_in_tier 0 then mkCalc total bd
      else
        let tier_interest := amount_in_tier * rate t in
        let monthly := tier_interest / 12 in
        interest_loop rest
          (total + tier_interest)
          (remaining_amount - amount_in_tier)
          (bd ++ [mkEntry amount_in_tier (rate t) tier_interest monthly])
  end.

Definition calculate_bank_interest (deposit_amount : Q) (bank_tiers : list tier)
  : interest_calc :=
  if Qle_bool deposit_amount 0 then mkCalc 0 []
  else interest_loop bank_tiers 0 deposit_amount [].

(* ================================================================== *)
(** * create_optimization_problem *)

(** The dictionary returned by [create_optimization_problem]. *)
Record lp_problem : Type := mkProblem {
  c : list Q;
  A_eq : list (list Q);
  b_eq : list Q;
  bounds : list (Q * Q);
  bank_names : list string
}.

(** [sum(...)]: a left fold that starts from 0. *)
Definition py_sum (l : list Q) : Q := fold_left Qplus l 0.

(** The [for bank_name, tiers in banks_data.items()] loop; the state is
    [(c, bounds, bank_names)].  [tiers[0]] raises [IndexError] on an
    account without tiers. *)
Fixpoint formulate_loop (items : dict (list tier)) (total_investment : Q)
    (cs : list Q) (bs : list (Q * Q)) (names : list string)
  : outcome (list Q * list (Q * Q) * list string) :=
  match items with
  | [] => Ok (cs, bs, names)
  | (bank_name, ts) :: rest =>
      let names' := names ++ [bank_name] in
      let max_deposit := py_sum (map amount ts) in
      match ts with
      | [] => Raise IndexError
      | t0 :: _ =>
          let first_tier_rate := - rate t0 in
          formulate_loop rest total_investment
            (cs ++ [first_tier_rate])
            (bs ++ [(0, Qmin max_deposit total_investment)])
            names'
      end
  end.

Definition create_optimization_problem (banks_data : dict (list tier))
    (total_investment : Q) : outcome lp_problem :=
  let num_banks := length banks_data in
  '(cs, bs, names) <- formulate_loop banks_data total_investment [] [] [] ;;
  Ok (mkProblem cs [repeat 1 num_banks] [total_investment] bs names).

(* ================================================================== *)
(** * simple_allocation *)

(** One record of [all_tiers]. *)
Record flat_tier : Type := mkFlat {
  ft_bank : string;
  ft_rate : Q;
  ft_amount : Q
}.

(** The two nested loops that fill [all_tiers]. *)
Definition flatten_tiers (banks_data : dict (list tier)) : list flat_tier :=
  flat_map (fun '(bank_name, ts) =>
              map (fun t => mkFlat bank_name (rate t) (amount t)) ts)
           banks_data.

(** [l.sort(key=..., reverse=True)]: the sort is stable, and with
    [reverse=True] records of equal key keep their original order.
    Each element is inserted in front of the first later element whose
    key is not greater. *)
Section SortDesc.
Context {A : Type} (key : A -> Q).

Fixpoint insert_desc (x : A) (l : list A) : list A :=
  match l with
  | [] => [x]
  | y :: l' =>
      if Qle_bool (key y) (key x) then x :: y :: l'
      else y :: insert_desc x l'
  end.

Definition sort_desc (l : list A) : list A := fold_right insert_desc [] l.
End SortDesc.

Definition empty_allocation : allocation := mkAlloc 0 0 0 [].

(** The body of the allocation loop on [allocations[bank_name]]: the
    entry is created when the key is absent, then updated in place. *)
Definition add_to_allocation (bank_name : string) (amount_for_tier r : Q)
    (allocs : dict allocation) : dict allocation :=
  let cur := match dict_get bank_name allocs with
             | Some a => a
             | None => empty_allocation
             end in
  let interest := amount_for_tier * r in
  let annual := annual_interest cur + interest in
  dict_set bank_name
    (mkAlloc (deposit cur + amount_for_tier) annual (annual / 12)
       (alloc_breakdown cur
          ++ [mkEntry amount_for_tier r interest (interest / 12)]))
    allocs.

(** The [for tier in all_tiers] loop; the state is
    [(remaining_investment, allocations, total_interest)]. *)
Fixpoint allocate_loop (all_tiers : list flat_tier) (remaining_investment : Q)
    (allocs : dict allocation) (total : Q) : dict allocation * Q :=
  match all_tiers with
  | [] => (allocs, total)
  | t :: rest =>
      if Qle_bool remaining_investment 0 then (allocs, total)
      else
        let amount_for_tier := Qmin remaining_investment (ft_amount t) in
        let interest := amount_for_tier * ft_rate t in
        allocate_loop rest
          (remaining_investment - amount_for_tier)
          (add_to_allocation (ft_bank t) amount_for_tier (ft_rate t) allocs)
          (total + interest)
  end.

Definition simple_allocation (banks_data : dict (list tier))
    (total_investment : Q) : outcome opt_result :=
  let all_tiers := sort_desc ft_rate (flatten_tiers banks_data) in
  let '(allocs, total) := allocate_loop all_tiers total_investment [] 0 in
  e <- py_div total total_investment ;;
  Ok (mkResult allocs total (total / 12) (e * 100) KeyAbsent).

(* ================================================================== *)
(** * optimize_deposits and optimize_with_salary_constraint *)

(** What a call of the solver does: it raises, or it returns a report
    with the fields [success] and [x]. *)
Inductive lp_report : Type :=
| LpRaised (e : exn)
| LpDone (success : bool) (x : list Q).

Definition call_solver (r : lp_report) : outcome (bool * list Q) :=
  match r with
  | LpRaised e => Raise e
  | LpDone success x => Ok (success, x)
  end.

(** [{bank_name: bank_info['tiers'] for ...}] *)
Definition simplify (banks_data : dict bank_info) : dict (list tier) :=
  map (fun '(bank_name, info) => (bank_name, tiers info)) banks_data.

(** The entry written for a solved deposit. *)
Definition solved_allocation (deposit_amount : Q) (ts : list tier) : allocation :=
  let interest_calc := calculate_bank_interest deposit_amount ts in
  let annual := total_interest interest_calc in
  mkAlloc deposit_amount annual (annual / 12) (breakdown interest_calc).

(** The [for i, bank_name in enumerate(problem['bank_names'])] loop; the
    state is [(optimization_result, total_interest)].  [result.x[i]]
    raises [IndexError] beyond the end of [x]. *)
Fixpoint aggregate_loop (names : list string) (i : nat) (x : list Q)
    (simplified : dict (list tier))
    (optimization_result : dict allocation) (total : Q)
  : outcome (dict allocation * Q) :=
  match names with
  | [] => Ok (optimization_result, total)
  | bank_name :: rest =>
      match nth_error x i with
      | None => Raise IndexError
      | Some deposit_amount =>
          if Qgt_bool deposit_amount (1 # 100) then
            ts <- dict_item bank_name simplified ;;
            let a := solved_allocation deposit_amount ts in
            aggregate_loop rest (S i) x simplified
              (dict_set bank_name a optimization_result)
              (total + annual_interest a)
          else
            aggregate_loop rest (S i) x simplified optimization_result total
      end
  end.

Definition set_chosen (r : opt_result) (ch : chosen) : opt_result :=
  mkResult (allocations r) (total_annual_interest r)
    (total_monthly_interest r) (effective_rate r) ch.

(** The non-chosen salary account of a trial: every rate 0.0, the
    capacities kept, and only the keys ['tiers'] and ['requires_salary']. *)
Definition zero_rates (info : bank_info) : bank_info :=
  mkBank (map (fun t => mkTier 0 (amount t)) (tiers info)) true None.

(** [modified_banks_data] for one candidate.  The keys of a dictionary
    are distinct, so every assignment of the loop adds one key. *)
Definition modified_banks_data (banks_data : dict bank_info)
    (chosen_bank : string) : dict bank_info :=
  map (fun '(bank_name, info) =>
         if requires_salary info && negb (String.eqb bank_name chosen_bank)
         then (bank_name, zero_rates info)
         else (bank_name, info))
      banks_data.

(** The list comprehension [salary_requiring_banks]. *)
Fixpoint salary_requiring (keys : list string) (banks_data : dict bank_info)
  : outcome (list string) :=
  match keys with
  | [] => Ok []
  | bank_name :: rest =>
      info <- dict_item bank_name banks_data ;;
      tl <- salary_requiring rest banks_data ;;
      Ok (if requires_salary info then bank_name :: tl else tl)
  end.

Section Solver.
(** [linprog(c=..., A_eq=..., b_eq=..., bounds=..., method='highs')] *)
Variable linprog : lp_problem -> lp_report.

Definition optimize_deposits (banks_data : dict bank_info)
    (total_investment : Q) : outcome opt_result :=
  let simplified := simplify banks_data in
  problem <- create_optimization_problem simplified total_investment ;;
  try_except
    ('(success, x) <- call_solver (linprog problem) ;;
     if negb success then simple_allocation simplified total_investment
     else
       '(optimization_result, total) <-
          aggregate_loop (bank_names problem) 0 x simplified [] 0 ;;
       e <- py_div total total_investment ;;
       Ok (mkResult optimization_result total (total / 12) (e * 100)
             KeyAbsent))
    (fun _ => simple_allocation simplified total_investment).

(** Phase 2: the [for chosen_bank in salary_requiring_banks] loop; the
    state is [(best_result, best_interest)], and [None] is Python's
    [None]. *)
Fixpoint salary_loop (candidates : list string) (banks_data : dict bank_info)
    (total_investment : Q) (best_result : option opt_result)
    (best_interest : Q) : outcome (option opt_result) :=
  match candidates with
  | [] => Ok best_result
  | chosen_bank :: rest =>
      result <- optimize_deposits
                  (modified_banks_data banks_data chosen_bank)
                  total_investment ;;
      if Qgt_bool (total_annual_interest result) best_interest then
        salary_loop rest banks_data total_investment
          (Some (set_chosen result (ChosenBank chosen_bank)))
          (total_annual_interest result)
      else
        salary_loop rest banks_data total_investment best_result best_interest
  end.

Definition optimize_with_salary_constraint (banks_data : dict bank_info)
    (total_investment : Q) : outcome (option opt_result) :=
  initial_results <- optimize_deposits banks_data total_investment ;;
  salary_requiring_banks <-
    salary_requiring (dict_keys (allocations initial_results)) banks_data ;;
  match salary_requiring_banks with
  | [] => Ok (Some (set_chosen initial_results ChosenNone))
  | [only] => Ok (Some (set_chosen initial_results (ChosenBank only)))
  | _ => salary_loop salary_requiring_banks banks_data total_investment None 0
  end.
End Solver.

(* ================================================================== *)
(** * Notions used to state the properties *)

(** Well-formed tiers: the invariant of the data model. *)
Definition tier_nonneg (t : tier) : Prop := 0 <= rate t /\ 0 <= amount t.
Definition tiers_nonneg (ts : list tier) : Prop := Forall tier_nonneg ts.
Definition banks_nonneg (banks_data : dict (list tier)) : Prop :=
  Forall (fun b => tiers_nonneg (snd b)) banks_data.

(** The interest of the evaluator's loop as a recursion on the tiers,
    without the accumulators: what the loop adds to its total. *)
Fixpoint tier_sum (remaining_amount : Q) (bank_tiers : list tier) : Q :=
  match bank_tiers with
  | [] => 0
  | t :: rest =>
      let a := Qmin remaining_amount (amount t) in
      if Qle_bool a 0 then 0
      else a * rate t + tier_sum (remaining_amount - a) rest
  end.

(** What the greedy loop adds to its total, on plain tiers. *)
Fixpoint greedy_value (remaining_investment : Q) (l : list tier) : Q :=
  match l with
  | [] => 0
  | t :: rest =>
      if Qle_bool remaining_investment 0 then 0
      else
        let a := Qmin remaining_investment (amount t) in
        a * rate t + greedy_value (remaining_investment - a) rest
  end.

Definition as_tier (f : flat_tier) : tier := mkTier (ft_rate f) (ft_amount f).

(** All tiers of all accounts, in the order of [flatten_tiers]. *)
Definition all_tiers (banks_data : dict (list tier)) : list tier :=
  flat_map snd banks_data.

Definition qsum (l : list Q) : Q := fold_right Qplus 0 l.

(** A split of the investment: one non-negative deposit per account,
    adding up to the investment. *)
Definition is_split (banks_data : dict (list tier)) (total_investment : Q)
    (ds : list Q) : Prop :=
  List.length ds = List.length banks_data
  /\ Forall (fun d => 0 <= d) ds
  /\ qsum ds == total_investment.

(** The interest of a split under the tier semantics of the evaluator. *)
Fixpoint true_interest (banks_data : dict (list tier)) (ds : list Q) : Q :=
  match banks_data, ds with
  | (_, ts) :: banks', d :: ds' =>
      total_interest (calculate_bank_interest d ts) + true_interest banks' ds'
  | _, _ => 0
  end.

(** [v] is the greatest interest of a split. *)
Definition is_maximum (banks_data : dict (list tier)) (total_investment : Q)
    (v : Q) : Prop :=
  (exists ds, is_split banks_data total_investment ds
              /\ true_interest banks_data ds == v)
  /\ (forall ds, is_split banks_data total_investment ds ->
                 true_interest banks_data ds <= v).

(** Rates that do not increase along a list of tiers. *)
Fixpoint descending (l : list tier) : Prop :=
  match l with
  | [] => True
  | t :: rest => Forall (fun u => rate u <= rate t) rest /\ descending rest
  end.

(** Accounts on which the greedy total is attained: every capacity is
    positive and the rates of an account do not increase. *)
Definition concave_account (ts : list tier) : Prop :=
  Forall (fun t => 0 <= rate t /\ 0 < amount t) ts /\ descending ts.

(** A fill puts an amount in each tier, within its capacity. *)
Definition fill := list (tier * Q).
Definition fill_ok (fa : fill) : Prop :=
  Forall (fun p => 0 <= snd p /\ snd p <= amount (fst p)) fa.
Definition fill_sum (fa : fill) : Q := qsum (map snd fa).
Definition fill_value (fa : fill) : Q :=
  qsum (map (fun p => snd p * rate (fst p)) fa).
Definition fill_key (p : tier * Q) : Q := rate (fst p).

(** The accounts kept by the aggregation of a solved vector [x]. *)
Fixpoint solved_allocations (banks_data : dict (list tier)) (x : list Q)
  : dict allocation :=
  match banks_data, x with
  | (bank_name, ts) :: banks', d :: x' =>
      if Qgt_bool d (1 # 100)
      then (bank_name, solved_allocation d ts) :: solved_allocations banks' x'
      else solved_allocations banks' x'
  | _, _ => []
  end.

(** The result of the re-solve for one candidate of the salary search. *)
Definition candidate_result (linprog : lp_problem -> lp_report)
    (banks_data : dict bank_info) (total_investment : Q) (k : string)
  : outcome opt_result :=
  optimize_deposits linprog (modified_banks_data banks_data k) total_investment.

(* ------------------------------------------------------------------ *)
(** ** Solvers and inputs used to run the model *)

Definition failing_solver (_ : lp_problem) : lp_report := LpDone false [].
Definition raising_solver (_ : lp_problem) : lp_report := LpRaised SolverError.

(** A solver that fills the variables in order up to their upper bound
    and reports success when the equality constraint is met. *)
Fixpoint first_fit (bs : list (Q * Q)) (remaining : Q) : list Q * Q :=
  match bs with
  | [] => ([], remaining)
  | (_, ub) :: rest =>
      let a := Qmin remaining ub in
      let '(xs, r) := first_fit rest (remaining - a) in
      (Qred a :: xs, r)
  end.

Definition first_fit_solver (p : lp_problem) : lp_report :=
  match b_eq p with
  | [total] =>
      let '(xs, r) := first_fit (bounds p) total in
      LpDone (Qeq_bool r 0) xs
  | _ => LpRaised SolverError
  end.

(** The rate used by the formulation: [tiers[0]['rate']]. *)
Definition first_rate (ts : list tier) : Q :=
  match ts with
  | t0 :: _ => rate t0
  | [] => 0
  end.

Definition has_tier (b : string * list tier) : bool :=
  match snd b with
  | [] => false
  | _ :: _ => true
  end.

(** A vector [x] meets the equality constraints [A_eq x = b_eq]. *)
Fixpoint dot (row x : list Q) : Q :=
  match row, x with
  | a :: row', v :: x' => a * v + dot row' x'
  | _, _ => 0
  end.

Definition meets_equalities (p : lp_problem) (x : list Q) : Prop :=
  Forall2 (fun row b => dot row x == b) (A_eq p) (b_eq p).

(** The solve did not produce a usable solution: the solver raised,
    reported failure, or the aggregation of its vector raised. *)
Definition solve_failed (linprog : lp_problem -> lp_report)
    (simplified : dict (list tier)) (p : lp_problem) : Prop :=
  (exists e, linprog p = LpRaised e)
  \/ (exists x, linprog p = LpDone false x)
  \/ (exists x e, linprog p = LpDone true x
                  /\ aggregate_loop (bank_names p) 0 x simplified [] 0
                     = Raise e).

(* ------------------------------------------------------------------ *)
(** ** Account sets used to run the model *)

Open Scope string_scope.

(** Two salary accounts and an ordinary one. *)
Definition ex_banks : dict bank_info :=
  [ ("A", mkBank [mkTier (3 # 100) 50000] true (Some []));
    ("B", mkBank [mkTier (25 # 1000) 80000] true (Some []));
    ("C", mkBank [mkTier (1 # 100) 100000] false (Some [])) ].

(** An account without tiers. *)
Definition ex_no_tier_banks : dict bank_info :=
  [ ("A", mkBank [] false (Some [])) ].

(** Two salary accounts that pay nothing. *)
Definition ex_zero_rate_banks : dict bank_info :=
  [ ("A", mkBank [mkTier 0 100] true (Some []));
    ("B", mkBank [mkTier 0 100] true (Some [])) ].

(** An account whose second tier pays more than its first, and an
    account that starts with a tier of capacity zero. *)
Definition ex_rising_banks : dict (list tier) :=
  [ ("A", [mkTier (1 # 100) 100; mkTier (5 # 100) 100]) ].
Definition ex_blocked_banks : dict (list tier) :=
  [ ("A", [mkTier (5 # 100) 0; mkTier (3 # 100) 100]) ].

(** Two accounts with several tiers of decreasing rate. *)
Definition ex_tiered_banks : dict (list tier) :=
  [ ("A", [mkTier (5 # 100) 1000; mkTier (3 # 100) 2000]);
    ("B", [mkTier (4 # 100) 1500; mkTier (1 # 100) 5000]) ].

Close Scope string_scope.

(** A solved vector that honours the bounds of the problem. *)
Definition honours_bounds (p : lp_problem) (x : list Q) : Prop :=
  Forall2 (fun v b => fst b <= v /\ v <= snd b) x (bounds p).

(* ------------------------------------------------------------------ *)
(** ** Notions for the accounting properties *)

(** The rows that the evaluator's loop appends to its breakdown. *)
Fixpoint tier_rows (remaining_amount : Q) (bank_tiers : list tier)
  : list breakdown_entry :=
  match bank_tiers with
  | [] => []
  | t :: rest =>
      let a := Qmin remaining_amount (amount t) in
      if Qle_bool a 0 then []
      else mkEntry a (rate t) (a * rate t) (a * rate t / 12)
             :: tier_rows (remaining_amount - a) rest
  end.

(** The capacity of an account and the interest of the full account. *)
Definition capacity (ts : list tier) : Q := qsum (map amount ts).
Definition full_interest (ts : list tier) : Q :=
  qsum (map (fun t => amount t * rate t) ts).

(** A row is consistent: its interest is amount times rate, and its
    monthly interest a twelfth of that. *)
Definition row_consistent (e : breakdown_entry) : Prop :=
  tier_interest e = amount_in_tier e * tier_rate e
  /\ entry_monthly_interest e = tier_interest e / 12.

(** The capacity of all accounts together, and the vectors a solver may
    return: within the bounds and meeting the equality constraint. *)
Definition total_capacity (banks_data : dict (list tier)) : Q :=
  qsum (map (fun b => capacity (snd b)) banks_data).

Definition lp_feasible (p : lp_problem) (x : list Q) : Prop :=
  honours_bounds p x /\ meets_equalities p x.

(** The sum of a field over the values of a dictionary. *)
Definition dict_sum {V : Type} (f : V -> Q) (d : dict V) : Q :=
  qsum (map (fun kv => f (snd kv)) d).

(** An allocation of the greedy allocator is consistent with its
    breakdown. *)
Definition alloc_consistent (a : allocation) : Prop :=
  deposit a == qsum (map amount_in_tier (alloc_breakdown a))
  /\ annual_interest a == qsum (map tier_interest (alloc_breakdown a))
  /\ monthly_interest a == annual_interest a / 12
  /\ Forall row_consistent (alloc_breakdown a).

(** Every account has at least one tier. *)
Definition accounts_have_tiers (banks_data : dict bank_info) : Prop :=
  Forall (fun b => tiers (snd b) <> []) banks_data.

(** The deposit recorded for an account, 0 when it has no allocation. *)
Definition deposit_of (name : string) (allocs : dict allocation) : Q :=
  match dict_get name allocs with
  | Some a => deposit a
  | None => 0
  end.

(** The capacity that the tiers tagged [name] add up to. *)
Definition tagged_capacity (name : string) (l : list flat_tier) : Q :=
  qsum (map (fun t => if String.eqb name (ft_bank t) then ft_amount t else 0) l).

(** The interest of all accounts filled to capacity. *)
Definition total_full_interest (banks_data : dict (list tier)) : Q :=
  qsum (map (fun b => full_interest (snd b)) banks_data).

(* ================================================================== *)
(** * Proofs *)

(* ------------------------------------------------------------------ *)
(** ** Facts about the boolean tests and [Qmin] *)

Lemma Qle_bool_true (x y : Q) : Qle_bool x y = true <-> x <= y.
Proof. apply Qle_bool_iff. Qed.

Lemma Qle_bool_false (x y : Q) : Qle_bool x y = false <-> y < x.
Proof.
  split; intro H.
  - apply Qnot_le_lt. intro Hle. apply Qle_bool_iff in Hle. congruence.
  - destruct (Qle_bool x y) eqn:E; [|reflexivity].
    apply Qle_bool_iff in E. lra.
Qed.

Lemma Qgt_bool_true (x y : Q) : Qgt_bool x y = true <-> y < x.
Proof.
  unfold Qgt_bool. rewrite negb_true_iff. apply Qle_bool_false.
Qed.

Lemma Qgt_bool_false (x y : Q) : Qgt_bool x y = false <-> x <= y.
Proof.
  unfold Qgt_bool. rewrite negb_false_iff. apply Qle_bool_true.
Qed.

Lemma Qmin_cases (x y : Q) :
  (x <= y /\ Qmin x y == x) \/ (y < x /\ Qmin x y == y).
Proof.
  destruct (Qlt_le_dec y x) as [H|H].
  - right. split; [exact H|]. apply Q.min_r. lra.
  - left. split; [exact H|]. now apply Q.min_l.
Qed.

Lemma Qmult_le_mono_l (a x y : Q) : 0 <= a -> x <= y -> a * x <= a * y.
Proof.
  intros Ha Hxy. rewrite (Qmult_comm a x), (Qmult_comm a y).
  now apply Qmult_le_compat_r.
Qed.

(** Case analysis on a test of the source, leaving order facts. *)
Ltac qtest t :=
  let E := fresh "E" in
  destruct t eqn:E;
  [ apply Qle_bool_true in E | apply Qle_bool_false in E ].

Ltac qmin x y :=
  let H := fresh "Hm" in
  let E := fresh "Em" in
  destruct (Qmin_cases x y) as [[H E]|[H E]].

(* ------------------------------------------------------------------ *)
(** ** The loop and its recursion *)

Lemma interest_loop_total (ts : list tier) :
  forall total rem bd,
    total_interest (interest_loop ts total rem bd) == total + tier_sum rem ts.
Proof.
  induction ts as [|t rest IH]; intros total rem bd; simpl.
  - lra.
  - destruct (Qle_bool (Qmin rem (amount t)) 0); simpl.
    + lra.
    + rewrite IH. lra.
Qed.

Lemma interest_loop_app_stop (pre : list tier) (z : tier) (post : list tier) :
  amount z <= 0 ->
  forall total rem bd,
    interest_loop (pre ++ z :: post) total rem bd = interest_loop pre total rem bd.
Proof.
  intro Hz.
  induction pre as [|t rest IH]; intros total rem bd; simpl.
  - assert (H : Qle_bool (Qmin rem (amount z)) 0 = true).
    { apply Qle_bool_true. qmin rem (amount z); lra. }
    now rewrite H.
  - destruct (Qle_bool (Qmin rem (amount t)) 0); [reflexivity|apply IH].
Qed.

Lemma tier_sum_nonneg (ts : list tier) :
  tiers_nonneg ts -> forall rem, 0 <= tier_sum rem ts.
Proof.
  induction 1 as [|t rest [Hr Ha] _ IH]; intro rem; simpl.
  - lra.
  - qtest (Qle_bool (Qmin rem (amount t)) 0); [lra|].
    specialize (IH (rem - Qmin rem (amount t))).
    assert (0 <= Qmin rem (amount t) * rate t) by (apply Qmult_le_0_compat; lra).
    lra.
Qed.

Lemma tier_sum_mono (ts : list tier) :
  tiers_nonneg ts ->
  forall r1 r2, r1 <= r2 -> tier_sum r1 ts <= tier_sum r2 ts.
Proof.
  induction 1 as [|t rest [Hr Ha] Hrest IH]; intros r1 r2 Hle; simpl.
  - lra.
  - qtest (Qle_bool (Qmin r1 (amount t)) 0).
    + qtest (Qle_bool (Qmin r2 (amount t)) 0); [lra|].
      pose proof (tier_sum_nonneg rest Hrest (r2 - Qmin r2 (amount t))).
      assert (0 <= Qmin r2 (amount t) * rate t) by (apply Qmult_le_0_compat; lra).
      lra.
    + qtest (Qle_bool (Qmin r2 (amount t)) 0).
      * exfalso. qmin r1 (amount t); qmin r2 (amount t); lra.
      * set (m1 := Qmin r1 (amount t)) in *.
        set (m2 := Qmin r2 (amount t)) in *.
        assert (Hm : m1 <= m2 /\ r1 - m1 <= r2 - m2).
        { subst m1 m2. qmin r1 (amount t); qmin r2 (amount t); lra. }
        destruct Hm as [Hm1 Hm2].
        specialize (IH _ _ Hm2).
        assert (m1 * rate t <= m2 * rate t) by (apply Qmult_le_compat_r; lra).
        lra.
Qed.

Lemma calculate_total (d : Q) (ts : list tier) :
  total_interest (calculate_bank_interest d ts)
  == if Qle_bool d 0 then 0 else tier_sum d ts.
Proof.
  unfold calculate_bank_interest.
  destruct (Qle_bool d 0); simpl; [reflexivity|].
  rewrite interest_loop_total. lra.
Qed.

Lemma tier_sum_nonpos (ts : list tier) (rem : Q) :
  rem <= 0 -> tier_sum rem ts = 0.
Proof.
  intro H. destruct ts as [|t rest]; simpl; [reflexivity|].
  assert (E : Qle_bool (Qmin rem (amount t)) 0 = true).
  { apply Qle_bool_true. qmin rem (amount t); lra. }
  now rewrite E.
Qed.

Lemma calculate_total_tier_sum (d : Q) (ts : list tier) :
  total_interest (calculate_bank_interest d ts) == tier_sum d ts.
Proof.
  rewrite calculate_total.
  qtest (Qle_bool d 0); [|reflexivity].
  now rewrite tier_sum_nonpos.
Qed.

(* ------------------------------------------------------------------ *)
(** ** The tier evaluator *)

(** C9.  For a deposit [d <= 0], [calculate_bank_interest] returns a
    total interest of 0 and an empty breakdown, whatever the tiers are;
    the function is total, so it does not fail. *)
Theorem calculate_bank_interest_nonpositive (d : Q) (ts : list tier) :
  d <= 0 ->
  total_interest (calculate_bank_interest d ts) = 0
  /\ breakdown (calculate_bank_interest d ts) = [].
Proof.
  intro H. unfold calculate_bank_interest.
  apply Qle_bool_true in H. rewrite H. split; reflexivity.
Qed.

Lemma calculate_bank_interest_nonpositive_witness :
  - (5) <= 0
  /\ total_interest
       (calculate_bank_interest (- (5)) [mkTier (1 # 100) 100; mkTier (5 # 100) 1000]) = 0
  /\ breakdown
       (calculate_bank_interest (- (5)) [mkTier (1 # 100) 100; mkTier (5 # 100) 1000]) = [].
Proof.
  split.
  - vm_compute. discriminate.
  - apply (calculate_bank_interest_nonpositive (- (5))). vm_compute. discriminate.
Defined.

(** C7.  A tier of capacity zero stops the evaluation: for a deposit
    [d > 0], the result on [pre ++ z :: post] with [z] of capacity 0 is
    the result on [pre] alone, so no tier after [z] contributes.  On
    [(0.01,100); (0,0); (0.05,1000)] with [d = 500] the total interest
    is [100 * 0.01], from a single breakdown row. *)
Theorem zero_capacity_tier_stops :
  (forall (d : Q) (pre : list tier) (z : tier) (post : list tier),
      0 < d -> amount z == 0 ->
      calculate_bank_interest d (pre ++ z :: post)
      = calculate_bank_interest d pre)
  /\ total_interest
       (calculate_bank_interest 500
          [mkTier (1 # 100) 100; mkTier 0 0; mkTier (5 # 100) 1000])
     == 100 * (1 # 100)
  /\ List.length
       (breakdown
          (calculate_bank_interest 500
             [mkTier (1 # 100) 100; mkTier 0 0; mkTier (5 # 100) 1000]))
     = 1%nat.
Proof.
  split; [|split; reflexivity].
  intros d pre z post _ Hz. unfold calculate_bank_interest.
  destruct (Qle_bool d 0); [reflexivity|].
  apply interest_loop_app_stop. lra.
Qed.

Lemma zero_capacity_tier_stops_witness :
  0 < 150 /\ amount (mkTier (7 # 100) 0) == 0
  /\ calculate_bank_interest 150
       ([mkTier (2 # 100) 100] ++ mkTier (7 # 100) 0 :: [mkTier (9 # 100) 1000])
     = calculate_bank_interest 150 [mkTier (2 # 100) 100].
Proof.
  split; [reflexivity|]. split; [reflexivity|].
  apply (proj1 zero_capacity_tier_stops); reflexivity.
Defined.

(** C8.  With non-negative rates and capacities the total interest of
    [calculate_bank_interest] does not decrease when the deposit grows. *)
Theorem calculate_bank_interest_monotone (ts : list tier) (d1 d2 : Q) :
  tiers_nonneg ts ->
  d1 <= d2 ->
  total_interest (calculate_bank_interest d1 ts)
  <= total_interest (calculate_bank_interest d2 ts).
Proof.
  intros Hts Hle.
  rewrite !calculate_total_tier_sum.
  now apply tier_sum_mono.
Qed.

Lemma calculate_bank_interest_monotone_witness :
  tiers_nonneg [mkTier (3 # 100) 100; mkTier (1 # 100) 1000]
  /\ 50 <= 400
  /\ total_interest
       (calculate_bank_interest 50 [mkTier (3 # 100) 100; mkTier (1 # 100) 1000])
     <= total_interest
          (calculate_bank_interest 400 [mkTier (3 # 100) 100; mkTier (1 # 100) 1000]).
Proof.
  assert (H : tiers_nonneg [mkTier (3 # 100) 100; mkTier (1 # 100) 1000]).
  { repeat constructor; vm_compute; discriminate. }
  assert (L : 50 <= 400) by (vm_compute; discriminate).
  split; [exact H|]. split; [exact L|].
  exact (calculate_bank_interest_monotone _ 50 400 H L).
Defined.

(* ------------------------------------------------------------------ *)
(** ** The formulation of the linear program *)

Lemma formulate_loop_spec (total : Q) (items : dict (list tier)) :
  forall cs bs names,
    formulate_loop items total cs bs names
    = if forallb has_tier items
      then Ok (cs ++ map (fun b => - first_rate (snd b)) items,
               bs ++ map (fun b => (0, Qmin (py_sum (map amount (snd b))) total)) items,
               names ++ map fst items)
      else Raise IndexError.
Proof.
  induction items as [|[name ts] rest IH]; intros cs bs names; simpl.
  - now rewrite !app_nil_r.
  - destruct ts as [|t0 ts']; [reflexivity|].
    unfold has_tier at 1. simpl. rewrite IH.
    destruct (forallb has_tier rest); [|reflexivity].
    now rewrite <- !app_assoc.
Qed.

Lemma create_optimization_problem_eq (banks : dict (list tier)) (total : Q) :
  create_optimization_problem banks total
  = if forallb has_tier banks
    then Ok (mkProblem
               (map (fun b => - first_rate (snd b)) banks)
               [repeat 1 (List.length banks)]
               [total]
               (map (fun b => (0, Qmin (py_sum (map amount (snd b))) total)) banks)
               (map fst banks))
    else Raise IndexError.
Proof.
  unfold create_optimization_problem. rewrite formulate_loop_spec.
  destruct (forallb has_tier banks); reflexivity.
Qed.

Lemma forallb_has_tier_false (banks : dict (list tier)) :
  forallb has_tier banks = false -> exists name, In (name, []) banks.
Proof.
  induction banks as [|[name ts] rest IH]; simpl; [discriminate|].
  destruct ts as [|t0 ts'].
  - intros _. exists name. now left.
  - unfold has_tier at 1. simpl. intro H.
    destruct (IH H) as [n Hn]. exists n. now right.
Qed.

Lemma dot_ones (x : list Q) : dot (repeat 1 (List.length x)) x == qsum x.
Proof.
  induction x as [|v x IH]; simpl; [reflexivity|].
  rewrite IH. lra.
Qed.

(** C5.  The problem built by [create_optimization_problem] has, for the
    account at each position [i], the objective coefficient
    [- rate] of the account's first tier, the bounds
    [(0, min (sum of the account's capacities) total)], and the name of
    the account; its only equality constraint is that the variables add
    up to [total].  The problem is built exactly when every account has
    a tier; otherwise [IndexError] is raised. *)
Theorem create_optimization_problem_formulation
    (banks : dict (list tier)) (total : Q) :
  match create_optimization_problem banks total with
  | Ok p =>
      List.length (c p) = List.length banks
      /\ List.length (bounds p) = List.length banks
      /\ List.length (A_eq p) = 1%nat
      /\ b_eq p = [total]
      /\ (forall x, List.length x = List.length banks ->
                    (meets_equalities p x <-> qsum x == total))
      /\ (forall i name ts,
             nth_error banks i = Some (name, ts) ->
             exists t0 rest,
               ts = t0 :: rest
               /\ nth_error (c p) i = Some (- rate t0)
               /\ nth_error (bounds p) i
                  = Some (0, Qmin (py_sum (map amount ts)) total)
               /\ nth_error (bank_names p) i = Some name)
  | Raise e => e = IndexError /\ exists name, In (name, []) banks
  end.
Proof.
  rewrite create_optimization_problem_eq.
  destruct (forallb has_tier banks) eqn:Hall.
  - simpl. rewrite !length_map.
    split; [reflexivity|]. split; [reflexivity|].
    split; [reflexivity|]. split; [reflexivity|]. split.
    + intros x Hx. unfold meets_equalities. simpl.
      rewrite <- Hx, <- (dot_ones x). split.
      * intro H. now inversion H.
      * intro H. constructor; [exact H|constructor].
    + intros i name ts Hi.
      rewrite forallb_forall in Hall.
      pose proof (Hall _ (nth_error_In _ _ Hi)) as Ht.
      unfold has_tier in Ht. simpl in Ht.
      destruct ts as [|t0 rest]; [discriminate|].
      exists t0, rest.
      rewrite !nth_error_map, Hi. simpl. repeat split; reflexivity.
  - split; [reflexivity|]. now apply forallb_has_tier_false.
Qed.

(* ------------------------------------------------------------------ *)
(** ** Division and dictionaries *)

Lemma py_div_zero (x y : Q) : y == 0 -> py_div x y = Raise ZeroDivisionError.
Proof.
  intro H. unfold py_div. apply Qeq_bool_iff in H. now rewrite H.
Qed.

Lemma py_div_nonzero (x y : Q) : ~ y == 0 -> py_div x y = Ok (x / y).
Proof.
  intro H. unfold py_div.
  destruct (Qeq_bool y 0) eqn:E; [|reflexivity].
  apply Qeq_bool_iff in E. contradiction.
Qed.

Section DictFacts.
Context {V : Type}.
Implicit Types (d : dict V) (k : string) (v : V).

Lemma dict_get_not_in k d : ~ In k (dict_keys d) -> dict_get k d = None.
Proof.
  induction d as [|[k' v'] d IH]; simpl; [reflexivity|].
  intro H. destruct (String.eqb_spec k k') as [->|Hne].
  - exfalso. apply H. now left.
  - apply IH. intro Hin. apply H. now right.
Qed.

Lemma dict_get_in k d : In k (dict_keys d) -> exists v, dict_get k d = Some v.
Proof.
  induction d as [|[k' v'] d IH]; simpl; [contradiction|].
  intros [->|Hin].
  - rewrite String.eqb_refl. now exists v'.
  - destruct (String.eqb k k'); [now exists v'|now apply IH].
Qed.

Lemma dict_set_fresh k v d :
  ~ In k (dict_keys d) -> dict_set k v d = d ++ [(k, v)].
Proof.
  induction d as [|[k' v'] d IH]; simpl; [reflexivity|].
  intro H. destruct (String.eqb_spec k k') as [->|Hne].
  - exfalso. apply H. now left.
  - rewrite IH; [reflexivity|]. intro Hin. apply H. now right.
Qed.

Lemma dict_get_nodup k v d :
  NoDup (dict_keys d) -> In (k, v) d -> dict_get k d = Some v.
Proof.
  induction d as [|[k' v'] d IH]; simpl; [contradiction|].
  intros Hnd [Heq|Hin].
  - inversion Heq; subst. now rewrite String.eqb_refl.
  - inversion Hnd as [|? ? Hni Hnd']; subst.
    destruct (String.eqb_spec k k') as [->|Hne].
    + exfalso. apply Hni. change k' with (fst (k', v)). now apply in_map.
    + now apply IH.
Qed.
End DictFacts.

(* ------------------------------------------------------------------ *)
(** ** The greedy loop and its total *)

Lemma allocate_loop_total (l : list flat_tier) :
  forall rem allocs total,
    snd (allocate_loop l rem allocs total)
    == total + greedy_value rem (map as_tier l).
Proof.
  induction l as [|t rest IH]; intros rem allocs total; simpl.
  - lra.
  - destruct (Qle_bool rem 0); simpl; [lra|].
    rewrite IH. lra.
Qed.

Lemma simple_allocation_zero (banks : dict (list tier)) (total : Q) :
  total == 0 -> simple_allocation banks total = Raise ZeroDivisionError.
Proof.
  intro H. unfold simple_allocation.
  destruct (allocate_loop _ _ _ _) as [allocs t].
  now rewrite py_div_zero.
Qed.

Lemma simple_allocation_nonzero (banks : dict (list tier)) (total : Q) :
  ~ total == 0 ->
  exists r,
    simple_allocation banks total = Ok r
    /\ r = (let st := allocate_loop (sort_desc ft_rate (flatten_tiers banks))
                        total [] 0 in
            mkResult (fst st) (snd st) (snd st / 12)
              (snd st / total * 100) KeyAbsent).
Proof.
  intro H. unfold simple_allocation.
  destruct (allocate_loop _ _ _ _) as [allocs t].
  rewrite py_div_nonzero by exact H. simpl. eexists. split; reflexivity.
Qed.

(* ------------------------------------------------------------------ *)
(** ** optimize_deposits *)

Section SolverFacts.
Variable linprog : lp_problem -> lp_report.

Lemma optimize_deposits_formulation_raises banks total e :
  create_optimization_problem (simplify banks) total = Raise e ->
  optimize_deposits linprog banks total = Raise e.
Proof.
  intro H. unfold optimize_deposits. now rewrite H.
Qed.

Lemma optimize_deposits_failed banks total p :
  create_optimization_problem (simplify banks) total = Ok p ->
  solve_failed linprog (simplify banks) p ->
  optimize_deposits linprog banks total
  = simple_allocation (simplify banks) total.
Proof.
  intros Hp Hf. unfold optimize_deposits. rewrite Hp. simpl.
  destruct Hf as [[e He]|[[x Hx]|[x [e [Hx Ha]]]]].
  - now rewrite He.
  - rewrite Hx. simpl.
    destruct (simple_allocation (simplify banks) total); reflexivity.
  - rewrite Hx. simpl. now rewrite Ha.
Qed.

Lemma optimize_deposits_zero banks total :
  total == 0 ->
  optimize_deposits linprog banks total = Raise ZeroDivisionError
  \/ optimize_deposits linprog banks total = Raise IndexError.
Proof.
  intro H0. unfold optimize_deposits.
  rewrite create_optimization_problem_eq.
  destruct (forallb has_tier (simplify banks)); [|now right].
  left. cbn [bind].
  pose proof (simple_allocation_zero (simplify banks) total H0) as Hs.
  destruct (linprog _) as [e|success x]; simpl.
  - exact Hs.
  - destruct success; simpl.
    + destruct (aggregate_loop _ _ _ _ _ _) as [[res t]|e]; simpl.
      * now rewrite py_div_zero.
      * exact Hs.
    + now rewrite Hs.
Qed.

Lemma optimize_deposits_ok_iff banks total :
  (exists r, optimize_deposits linprog banks total = Ok r)
  <-> (forallb has_tier (simplify banks) = true /\ ~ total == 0).
Proof.
  split.
  - intros [r Hr]. split.
    + destruct (forallb has_tier (simplify banks)) eqn:E; [reflexivity|].
      unfold optimize_deposits in Hr.
      rewrite create_optimization_problem_eq, E in Hr. discriminate.
    + intro H0. destruct (optimize_deposits_zero banks total H0); congruence.
  - intros [Hall Hnz]. unfold optimize_deposits.
    rewrite create_optimization_problem_eq, Hall. cbn [bind].
    destruct (simple_allocation_nonzero (simplify banks) total Hnz)
      as [r [Hr _]].
    destruct (linprog _) as [e|success x]; simpl.
    + now exists r.
    + destruct success; simpl.
      * destruct (aggregate_loop _ _ _ _ _ _) as [[res t]|e]; simpl.
        -- rewrite py_div_nonzero by exact Hnz. simpl. eauto.
        -- now exists r.
      * rewrite Hr. simpl. now exists r.
Qed.
End SolverFacts.

Lemma aggregate_loop_below_threshold (simplified : dict (list tier))
    (names : list string) :
  forall (pre xs : list Q) (acc : dict allocation) (total : Q),
    List.length names = List.length xs ->
    Forall (fun v => v <= 1 # 100) xs ->
    aggregate_loop names (List.length pre) (pre ++ xs) simplified acc total
    = Ok (acc, total).
Proof.
  induction names as [|n names IH]; intros pre xs acc total Hlen Hxs;
    simpl; [reflexivity|].
  destruct xs as [|v xs]; [discriminate|].
  rewrite nth_error_app2 by lia. rewrite Nat.sub_diag. simpl.
  inversion Hxs as [|? ? Hv Hxs']; subst.
  apply Qgt_bool_false in Hv. rewrite Hv.
  assert (Hpre : pre ++ v :: xs = (pre ++ [v]) ++ xs)
    by now rewrite <- app_assoc.
  assert (HS : S (List.length pre) = List.length (pre ++ [v]))
    by (rewrite length_app; simpl; lia).
  rewrite Hpre, HS. apply IH; [now inversion Hlen|assumption].
Qed.

(** For an investment of 0 a solution within the bounds records no
    account, and the dividend of the effective rate is the initial 0. *)
Lemma aggregate_zero_investment (banks : dict bank_info) (total : Q)
    (p : lp_problem) (x : list Q) :
  create_optimization_problem (simplify banks) total = Ok p ->
  total == 0 ->
  honours_bounds p x ->
  aggregate_loop (bank_names p) 0 x (simplify banks) [] 0 = Ok ([], 0).
Proof.
  intros Hp H0 Hb.
  rewrite create_optimization_problem_eq in Hp.
  destruct (forallb has_tier (simplify banks)); [|discriminate].
  inversion Hp; subst p; clear Hp. unfold honours_bounds in Hb. simpl in *.
  apply (aggregate_loop_below_threshold (simplify banks) _ [] x [] 0).
  - rewrite length_map. apply Forall2_length in Hb.
    rewrite length_map in Hb. now symmetry.
  - remember (simplify banks) as sb. clear Heqsb.
    revert x Hb. induction sb as [|b sb IH]; intros x Hb.
    + inversion Hb. constructor.
    + inversion Hb as [|v ? xs ? [_ Hv] Hrest]; subst. simpl in Hv.
      constructor; [|now apply IH].
      qmin (py_sum (map amount (snd b))) total; lra.
Qed.

(** C1.  With a total investment of 0 the engine returns no result:
    [simple_allocation] raises [ZeroDivisionError] on every account set,
    and [optimize_deposits] raises for every solver (by the division of
    the fallback, or by [IndexError] of the formulation).  Evaluated on
    three accounts with a solver that succeeds. *)
Theorem zero_investment_raises :
  (forall banks, simple_allocation banks 0 = Raise ZeroDivisionError)
  /\ (forall linprog banks,
         optimize_deposits linprog banks 0 = Raise ZeroDivisionError
         \/ optimize_deposits linprog banks 0 = Raise IndexError)
  /\ simple_allocation (simplify ex_banks) 0 = Raise ZeroDivisionError
  /\ optimize_deposits first_fit_solver ex_banks 0 = Raise ZeroDivisionError.
Proof.
  split; [|split; [|split]].
  - intro banks. now apply simple_allocation_zero.
  - intros linprog banks. now apply optimize_deposits_zero.
  - reflexivity.
  - reflexivity.
Qed.

(** C3.  The code at the failing input: one account without tiers and
    an investment of 100.  The formulation runs one line before the
    [try], so [tiers[0]] raises [IndexError]; the greedy fallback has a
    result on this input, but [optimize_deposits] never reaches it and
    raises [IndexError] to the caller, whatever the solver. *)
Lemma formulation_error_not_caught :
  create_optimization_problem (simplify ex_no_tier_banks) 100 = Raise IndexError
  /\ (exists r, simple_allocation (simplify ex_no_tier_banks) 100 = Ok r)
  /\ optimize_deposits first_fit_solver ex_no_tier_banks 100 = Raise IndexError
  /\ optimize_deposits failing_solver ex_no_tier_banks 100 = Raise IndexError.
Proof.
  split; [reflexivity|]. split; [|split; reflexivity].
  eexists. vm_compute. reflexivity.
Qed.

(** X27.  When the formulation succeeds and the solve fails (the solver
    raises, reports failure, or the aggregation of its vector raises),
    [optimize_deposits] returns what [simple_allocation] returns on the
    same accounts, and this is a result when the investment is not 0. *)
Theorem optimize_deposits_falls_back
    (linprog : lp_problem -> lp_report) (banks : dict bank_info) (total : Q)
    (p : lp_problem) :
  create_optimization_problem (simplify banks) total = Ok p ->
  solve_failed linprog (simplify banks) p ->
  optimize_deposits linprog banks total
  = simple_allocation (simplify banks) total
  /\ (~ total == 0 ->
      exists r, optimize_deposits linprog banks total = Ok r).
Proof.
  intros Hp Hf. split.
  - now apply optimize_deposits_failed with p.
  - intro Hnz. apply optimize_deposits_ok_iff. split; [|exact Hnz].
    rewrite create_optimization_problem_eq in Hp.
    destruct (forallb has_tier (simplify banks)); [reflexivity|discriminate].
Qed.

Lemma optimize_deposits_falls_back_witness :
  exists p,
    create_optimization_problem (simplify ex_banks) 60000 = Ok p
    /\ solve_failed raising_solver (simplify ex_banks) p
    /\ optimize_deposits raising_solver ex_banks 60000
       = simple_allocation (simplify ex_banks) 60000
    /\ (~ 60000 == 0 ->
        exists r, optimize_deposits raising_solver ex_banks 60000 = Ok r).
Proof.
  eexists. split; [vm_compute; reflexivity|].
  assert (F : forall p, solve_failed raising_solver (simplify ex_banks) p).
  { intro p. left. exists SolverError. reflexivity. }
  split; [apply F|].
  apply (optimize_deposits_falls_back raising_solver ex_banks 60000 _
           eq_refl (F _)).
Defined.

(* ------------------------------------------------------------------ *)
(** ** Aggregation of a solved vector *)

Lemma solved_allocations_keys (banks : dict (list tier)) :
  forall x k, In k (dict_keys (solved_allocations banks x)) ->
              In k (dict_keys banks).
Proof.
  induction banks as [|[name ts] rest IH]; intros x k; simpl; [tauto|].
  destruct x as [|d x']; simpl; [tauto|].
  destruct (Qgt_bool d (1 # 100)); simpl.
  - intros [->|H]; [now left|right; now apply (IH x')].
  - intro H. right. now apply (IH x').
Qed.

Lemma aggregate_loop_spec (simplified : dict (list tier)) :
  forall (banks : dict (list tier)) (pre xs : list Q)
         (acc : dict allocation) (total : Q),
    NoDup (dict_keys banks) ->
    (forall k, In k (dict_keys banks) -> ~ In k (dict_keys acc)) ->
    (forall k ts, In (k, ts) banks -> dict_get k simplified = Some ts) ->
    (List.length banks <= List.length xs)%nat ->
    aggregate_loop (dict_keys banks) (List.length pre) (pre ++ xs)
      simplified acc total
    = Ok (acc ++ solved_allocations banks xs,
          fold_left Qplus
            (map (fun a => annual_interest (snd a)) (solved_allocations banks xs))
            total).
Proof.
  induction banks as [|[name ts] rest IH];
    intros pre xs acc total Hnd Hfresh Hget Hlen; simpl.
  - now rewrite app_nil_r.
  - destruct xs as [|d xs']; [simpl in Hlen; lia|].
    rewrite nth_error_app2 by lia. rewrite Nat.sub_diag. simpl.
    inversion Hnd as [|? ? Hni Hnd']; subst.
    assert (Hpre : pre ++ d :: xs' = (pre ++ [d]) ++ xs')
      by now rewrite <- app_assoc.
    assert (HS : S (List.length pre) = List.length (pre ++ [d]))
      by (rewrite length_app; simpl; lia).
    assert (Hget' : forall k ts', In (k, ts') rest ->
                                  dict_get k simplified = Some ts')
      by (intros k ts' Hin; apply Hget; now right).
    simpl in Hlen.
    destruct (Qgt_bool d (1 # 100)).
    + unfold dict_item. rewrite (Hget name ts) by now left. simpl.
      rewrite dict_set_fresh by (apply Hfresh; now left).
      rewrite Hpre, HS, IH; try assumption; try lia.
      * simpl. now rewrite <- app_assoc.
      * intros k Hk Hin. unfold dict_keys in Hin.
        rewrite map_app in Hin. apply in_app_or in Hin.
        destruct Hin as [Hin|[<-|[]]].
        -- apply (Hfresh k); [now right|exact Hin].
        -- now apply Hni.
    + rewrite Hpre, HS, IH; try assumption; try lia.
      * reflexivity.
      * intros k Hk. apply Hfresh. now right.
Qed.

Lemma fold_left_Qplus (l : list Q) :
  forall total, fold_left Qplus l total == total + qsum l.
Proof.
  induction l as [|a l IH]; intro total; simpl; [lra|].
  rewrite IH. lra.
Qed.

Lemma solved_allocations_get (banks : dict (list tier)) :
  forall x i name ts d,
    NoDup (dict_keys banks) ->
    nth_error banks i = Some (name, ts) ->
    nth_error x i = Some d ->
    dict_get name (solved_allocations banks x)
    = if Qgt_bool d (1 # 100) then Some (solved_allocation d ts) else None.
Proof.
  induction banks as [|[n0 ts0] rest IH]; intros x i name ts d Hnd Hb Hx.
  - destruct i; discriminate.
  - inversion Hnd as [|? ? Hni Hnd']; subst.
    destruct x as [|d0 x']; [destruct i; discriminate|].
    destruct i as [|i]; simpl in Hb, Hx.
    + inversion Hb; inversion Hx; subst. simpl.
      destruct (Qgt_bool d (1 # 100)); simpl.
      * now rewrite String.eqb_refl.
      * apply dict_get_not_in. intro Hin.
        apply Hni. now apply solved_allocations_keys in Hin.
    + assert (Hne : name <> n0).
      { intros ->. apply Hni. apply nth_error_In in Hb.
        change n0 with (fst (n0, ts)). now apply in_map. }
      simpl. destruct (Qgt_bool d0 (1 # 100)); simpl.
      * destruct (String.eqb_spec name n0); [contradiction|].
        now apply IH with i.
      * now apply IH with i.
Qed.

Lemma simplify_keys (banks : dict bank_info) :
  dict_keys (simplify banks) = dict_keys banks.
Proof.
  unfold dict_keys, simplify. rewrite map_map.
  apply map_ext. now intros [k v].
Qed.

Lemma simplify_nth (banks : dict bank_info) (i : nat) name info :
  nth_error banks i = Some (name, info) ->
  nth_error (simplify banks) i = Some (name, tiers info).
Proof.
  intro H. unfold simplify. now rewrite nth_error_map, H.
Qed.

Section SolvedFacts.
Variable linprog : lp_problem -> lp_report.

Lemma optimize_deposits_solved banks total p x :
  NoDup (dict_keys banks) ->
  create_optimization_problem (simplify banks) total = Ok p ->
  linprog p = LpDone true x ->
  (List.length banks <= List.length x)%nat ->
  forall r, optimize_deposits linprog banks total = Ok r ->
    ~ total == 0
    /\ allocations r = solved_allocations (simplify banks) x
    /\ total_annual_interest r
       = fold_left Qplus
           (map (fun a => annual_interest (snd a))
              (solved_allocations (simplify banks) x)) 0
    /\ chosen_salary_bank r = KeyAbsent.
Proof.
  intros Hnd Hp Hx Hlen r Hr.
  assert (Hnz : ~ total == 0).
  { apply (optimize_deposits_ok_iff linprog banks total). now exists r. }
  split; [exact Hnz|].
  unfold optimize_deposits in Hr. rewrite Hp in Hr. cbn [bind] in Hr.
  rewrite Hx in Hr. cbn [call_solver bind negb] in Hr.
  assert (Hnames : bank_names p = dict_keys (simplify banks)).
  { rewrite create_optimization_problem_eq in Hp.
    destruct (forallb has_tier (simplify banks)); [|discriminate].
    now inversion Hp. }
  rewrite Hnames in Hr.
  assert (Hagg := aggregate_loop_spec (simplify banks) (simplify banks)
                    [] x [] 0).
  cbn [List.length app] in Hagg. rewrite Hagg in Hr.
  - cbn [bind app] in Hr. rewrite py_div_nonzero in Hr by exact Hnz.
    cbn [bind try_except] in Hr. inversion Hr; subst. simpl. tauto.
  - now rewrite simplify_keys.
  - intros k _ [].
  - intros k ts Hin. apply dict_get_nodup; [|exact Hin].
    now rewrite simplify_keys.
  - unfold simplify. now rewrite length_map.
Qed.
End SolvedFacts.

(** C6.  When the formulation succeeds and the solver reports success
    with a vector [x] that has an entry for every account, every result
    of [optimize_deposits] lists exactly the accounts whose entry of [x]
    exceeds 0.01: such an account is recorded with the deposit [x_i] and
    with the interest and breakdown that [calculate_bank_interest]
    computes on [x_i]; any other account is absent; and the reported
    total is the sum of the recorded interests.  A result is returned
    whenever the investment is not 0. *)
Theorem optimize_deposits_reports_evaluated_interest
    (linprog : lp_problem -> lp_report) (banks : dict bank_info) (total : Q)
    (p : lp_problem) (x : list Q) :
  NoDup (dict_keys banks) ->
  create_optimization_problem (simplify banks) total = Ok p ->
  linprog p = LpDone true x ->
  (List.length banks <= List.length x)%nat ->
  (~ total == 0 -> exists r, optimize_deposits linprog banks total = Ok r)
  /\ forall r, optimize_deposits linprog banks total = Ok r ->
       allocations r = solved_allocations (simplify banks) x
       /\ (forall i name info d,
              nth_error banks i = Some (name, info) ->
              nth_error x i = Some d ->
              if Qgt_bool d (1 # 100)
              then exists a,
                     dict_get name (allocations r) = Some a
                     /\ deposit a = d
                     /\ annual_interest a
                        = total_interest
                            (calculate_bank_interest d (tiers info))
                     /\ monthly_interest a = annual_interest a / 12
                     /\ alloc_breakdown a
                        = breakdown (calculate_bank_interest d (tiers info))
              else dict_get name (allocations r) = None)
       /\ total_annual_interest r
          == qsum (map (fun a => annual_interest (snd a)) (allocations r)).
Proof.
  intros Hnd Hp Hx Hlen. split.
  - intro Hnz. apply optimize_deposits_ok_iff. split; [|exact Hnz].
    rewrite create_optimization_problem_eq in Hp.
    destruct (forallb has_tier (simplify banks)); [reflexivity|discriminate].
  - intros r Hr.
    destruct (optimize_deposits_solved linprog banks total p x
                Hnd Hp Hx Hlen r Hr) as [_ [Ha [Ht _]]].
    split; [exact Ha|]. split.
    + intros i name info d Hb Hd. rewrite Ha.
      rewrite (solved_allocations_get (simplify banks) x i name (tiers info) d);
        [|now rewrite simplify_keys|now apply simplify_nth|exact Hd].
      destruct (Qgt_bool d (1 # 100)); [|reflexivity].
      eexists. split; [reflexivity|]. simpl. repeat split; reflexivity.
    + rewrite Ht, Ha, fold_left_Qplus. lra.
Qed.

Lemma ex_banks_nodup : NoDup (dict_keys ex_banks).
Proof.
  repeat constructor; simpl; intuition discriminate.
Qed.

Lemma optimize_deposits_reports_evaluated_interest_witness :
  exists r,
    optimize_deposits first_fit_solver ex_banks 60000 = Ok r
    /\ allocations r
       = solved_allocations (simplify ex_banks) [50000; 10000; 0].
Proof.
  assert (Hlen : (List.length ex_banks <= 3)%nat) by (simpl; lia).
  assert (Hnz : ~ 60000 == 0) by (intro H; vm_compute in H; discriminate).
  destruct (optimize_deposits_reports_evaluated_interest
              first_fit_solver ex_banks 60000 _ [50000; 10000; 0]
              ex_banks_nodup eq_refl eq_refl Hlen) as [Hex Hall].
  destruct (Hex Hnz) as [r Hr].
  exists r. split; [exact Hr|]. exact (proj1 (Hall r Hr)).
Defined.

(* ------------------------------------------------------------------ *)
(** ** The salary search *)

Lemma modified_has_tier (banks : dict bank_info) (k : string) :
  forallb has_tier (simplify (modified_banks_data banks k))
  = forallb has_tier (simplify banks).
Proof.
  induction banks as [|[name info] rest IH]; simpl; [reflexivity|].
  rewrite IH. f_equal.
  destruct (requires_salary info && negb (String.eqb name k)); [|reflexivity].
  unfold has_tier. simpl. now destruct (tiers info).
Qed.

Section SalaryFacts.
Variable linprog : lp_problem -> lp_report.
Variable banks : dict bank_info.
Variable total : Q.

(** A candidate that does not improve on the best interest leaves the
    state of the loop as it is. *)
Lemma salary_loop_keep (ks : list string) :
  forall best bi,
    (forall k, In k ks ->
               exists r, candidate_result linprog banks total k = Ok r
                         /\ total_annual_interest r <= bi) ->
    salary_loop linprog ks banks total best bi = Ok best.
Proof.
  unfold candidate_result.
  induction ks as [|k ks IH]; intros best bi H; simpl; [reflexivity|].
  destruct (H k (or_introl eq_refl)) as [r [Hr Hle]].
  rewrite Hr. simpl.
  apply Qgt_bool_false in Hle. rewrite Hle.
  apply IH. intros j Hj. apply H. now right.
Qed.

(** The first candidate whose interest no candidate exceeds is kept,
    when that interest is above the best interest so far. *)
Lemma salary_loop_first_best (pre : list string) (k : string)
    (post : list string) (rk : opt_result) :
  candidate_result linprog banks total k = Ok rk ->
  (forall j, In j pre ->
             exists r, candidate_result linprog banks total j = Ok r
                       /\ total_annual_interest r < total_annual_interest rk) ->
  (forall j, In j post ->
             exists r, candidate_result linprog banks total j = Ok r
                       /\ total_annual_interest r <= total_annual_interest rk) ->
  forall best bi,
    bi < total_annual_interest rk ->
    salary_loop linprog (pre ++ k :: post) banks total best bi
    = Ok (Some (set_chosen rk (ChosenBank k))).
Proof.
  intros Hk Hpre Hpost.
  induction pre as [|j pre IH]; intros best bi Hbi; simpl.
  - unfold candidate_result in Hk. rewrite Hk. simpl.
    apply Qgt_bool_true in Hbi. rewrite Hbi.
    now apply salary_loop_keep.
  - destruct (Hpre j (or_introl eq_refl)) as [r [Hr Hlt]].
    unfold candidate_result in Hr. rewrite Hr. simpl.
    assert (Hpre' : forall j', In j' pre ->
               exists r', candidate_result linprog banks total j' = Ok r'
                          /\ total_annual_interest r' < total_annual_interest rk)
      by (intros j' Hj'; apply Hpre; now right).
    destruct (Qgt_bool (total_annual_interest r) bi).
    + now apply IH.
    + now apply IH.
Qed.

Lemma candidate_ok (r0 : opt_result) (k : string) :
  optimize_deposits linprog banks total = Ok r0 ->
  exists r, candidate_result linprog banks total k = Ok r.
Proof.
  intro H0. unfold candidate_result.
  apply optimize_deposits_ok_iff. rewrite modified_has_tier.
  apply (optimize_deposits_ok_iff linprog banks total). now exists r0.
Qed.
End SalaryFacts.

(** C10.  When the unconstrained run allocates to two or more salary
    accounts and no re-solve for a candidate has a total annual interest
    greater than 0, [optimize_with_salary_constraint] returns [None]. *)
Theorem salary_search_returns_none
    (linprog : lp_problem -> lp_report) (banks : dict bank_info) (total : Q)
    (r0 : opt_result) (S : list string) :
  optimize_deposits linprog banks total = Ok r0 ->
  salary_requiring (dict_keys (allocations r0)) banks = Ok S ->
  (2 <= List.length S)%nat ->
  (forall k r, In k S ->
               candidate_result linprog banks total k = Ok r ->
               ~ 0 < total_annual_interest r) ->
  optimize_with_salary_constraint linprog banks total = Ok None.
Proof.
  intros H0 HS Hlen Hall.
  unfold optimize_with_salary_constraint. rewrite H0. cbn [bind].
  rewrite HS. cbn [bind].
  destruct S as [|k1 [|k2 S']]; [simpl in Hlen; lia|simpl in Hlen; lia|].
  apply salary_loop_keep. intros k Hk.
  destruct (candidate_ok linprog banks total r0 k H0) as [r Hr].
  exists r. split; [exact Hr|].
  specialize (Hall k r Hk Hr). lra.
Qed.

Lemma salary_search_returns_none_witness :
  optimize_with_salary_constraint failing_solver ex_zero_rate_banks 150
  = Ok None.
Proof.
  eapply (salary_search_returns_none failing_solver ex_zero_rate_banks 150
            _ ["A"; "B"]%string).
  - vm_compute. reflexivity.
  - vm_compute. reflexivity.
  - simpl. lia.
  - intros k r [<-|[<-|[]]] H; vm_compute in H; inversion H; subst;
      intro Hlt; vm_compute in Hlt; discriminate.
Defined.

(** C4: the claim fails on an input where no candidate earns interest.
    Two salary accounts at rate 0 both receive a deposit in the
    unconstrained run; each candidate has a result, tied at interest 0,
    and the search returns [None] instead of the first candidate. *)
Theorem salary_search_all_tied_at_zero :
  (exists r0,
      optimize_deposits first_fit_solver ex_zero_rate_banks 150 = Ok r0
      /\ salary_requiring (dict_keys (allocations r0)) ex_zero_rate_banks
         = Ok ["A"; "B"]%string)
  /\ (exists rA,
         candidate_result first_fit_solver ex_zero_rate_banks 150 "A" = Ok rA
         /\ total_annual_interest rA == 0)
  /\ (exists rB,
         candidate_result first_fit_solver ex_zero_rate_banks 150 "B" = Ok rB
         /\ total_annual_interest rB == 0)
  /\ optimize_with_salary_constraint first_fit_solver ex_zero_rate_banks 150
     = Ok None.
Proof.
  split; [|split; [|split]].
  - eexists. split; vm_compute; reflexivity.
  - eexists. split; [vm_compute; reflexivity|reflexivity].
  - eexists. split; [vm_compute; reflexivity|reflexivity].
  - reflexivity.
Qed.

(** X26.  The selection of the search when a candidate earns interest:
    with two or more salary accounts allocated in the unconstrained run,
    the result is the re-solve of the first candidate that no other
    candidate exceeds, tagged with that candidate; a later candidate of
    equal interest does not replace it. *)
Theorem salary_search_selects_first_best
    (linprog : lp_problem -> lp_report) (banks : dict bank_info) (total : Q)
    (r0 : opt_result) (pre : list string) (k : string) (post : list string)
    (rk : opt_result) :
  optimize_deposits linprog banks total = Ok r0 ->
  salary_requiring (dict_keys (allocations r0)) banks = Ok (pre ++ k :: post) ->
  (2 <= List.length (pre ++ k :: post))%nat ->
  candidate_result linprog banks total k = Ok rk ->
  0 < total_annual_interest rk ->
  (forall j r, In j pre -> candidate_result linprog banks total j = Ok r ->
               total_annual_interest r < total_annual_interest rk) ->
  (forall j r, In j post -> candidate_result linprog banks total j = Ok r ->
               total_annual_interest r <= total_annual_interest rk) ->
  optimize_with_salary_constraint linprog banks total
  = Ok (Some (set_chosen rk (ChosenBank k))).
Proof.
  intros H0 HS Hlen Hk Hpos Hpre Hpost.
  unfold optimize_with_salary_constraint. rewrite H0. cbn [bind].
  rewrite HS. cbn [bind].
  assert (Hloop : salary_loop linprog (pre ++ k :: post) banks total None 0
                  = Ok (Some (set_chosen rk (ChosenBank k)))).
  { apply salary_loop_first_best; try assumption.
    - intros j Hj.
      destruct (candidate_ok linprog banks total r0 j H0) as [r Hr].
      exists r. split; [exact Hr|]. now apply (Hpre j).
    - intros j Hj.
      destruct (candidate_ok linprog banks total r0 j H0) as [r Hr].
      exists r. split; [exact Hr|]. now apply (Hpost j). }
  destruct (pre ++ k :: post) as [|k1 [|k2 S']] eqn:E;
    [simpl in Hlen; lia|simpl in Hlen; lia|exact Hloop].
Qed.

(** The account set of a trial: the names and the order are those of the
    input; a salary account other than the candidate keeps its
    capacities and has every rate 0; any other account is unchanged. *)
Lemma modified_banks_data_entries (banks : dict bank_info) (k : string)
    (i : nat) (name : string) (info : bank_info) :
  nth_error banks i = Some (name, info) ->
  exists info',
    nth_error (modified_banks_data banks k) i = Some (name, info')
    /\ if requires_salary info && negb (String.eqb name k)
       then map amount (tiers info') = map amount (tiers info)
            /\ Forall (fun t => rate t = 0) (tiers info')
            /\ requires_salary info' = true
       else info' = info.
Proof.
  intro H. unfold modified_banks_data. rewrite nth_error_map, H. simpl.
  destruct (requires_salary info && negb (String.eqb name k)).
  - eexists. split; [reflexivity|]. simpl. rewrite map_map. simpl.
    repeat split. apply Forall_forall. intros t Ht.
    apply in_map_iff in Ht. destruct Ht as [u [<- _]]. reflexivity.
  - eexists. split; reflexivity.
Qed.

Lemma salary_search_selects_first_best_witness :
  exists rA,
    candidate_result first_fit_solver ex_banks 60000 "A" = Ok rA
    /\ optimize_with_salary_constraint first_fit_solver ex_banks 60000
       = Ok (Some (set_chosen rA (ChosenBank "A"))).
Proof.
  eexists. split; [vm_compute; reflexivity|].
  eapply (salary_search_selects_first_best first_fit_solver ex_banks 60000
            _ [] "A"%string ["B"%string]).
  - vm_compute. reflexivity.
  - vm_compute. reflexivity.
  - simpl. lia.
  - vm_compute. reflexivity.
  - vm_compute. reflexivity.
  - intros j r [].
  - intros j r [<-|[]] H. vm_compute in H. inversion H; subst.
    vm_compute. discriminate.
Defined.

(* ------------------------------------------------------------------ *)
(** ** The stable sort by descending rate *)

Section SortFacts.
Context {A : Type} (key : A -> Q).

Lemma Forall_insert_desc (P : A -> Prop) (x : A) (l : list A) :
  Forall P (insert_desc key x l) <-> P x /\ Forall P l.
Proof.
  induction l as [|y l IH]; simpl.
  - split; [intro H; inversion H; now split|intros [H _]; now constructor].
  - destruct (Qle_bool (key y) (key x)).
    + split; [intro H; inversion H; now split|intros [H1 H2]; now constructor].
    + split.
      * intro H. inversion H as [|? ? Hy Hl]; subst.
        apply IH in Hl. destruct Hl. split; [assumption|now constructor].
      * intros [Hx Hyl]. inversion Hyl; subst.
        constructor; [assumption|]. apply IH. now split.
Qed.

Lemma Forall_sort_desc (P : A -> Prop) (l : list A) :
  Forall P (sort_desc key l) <-> Forall P l.
Proof.
  induction l as [|x l IH]; simpl; [tauto|].
  rewrite Forall_insert_desc, IH.
  split; [intros [H1 H2]; now constructor|intro H; inversion H; now split].
Qed.

Lemma qsum_map_insert_desc (f : A -> Q) (x : A) (l : list A) :
  qsum (map f (insert_desc key x l)) == f x + qsum (map f l).
Proof.
  induction l as [|y l IH]; simpl; [reflexivity|].
  destruct (Qle_bool (key y) (key x)); simpl; [reflexivity|].
  rewrite IH. lra.
Qed.

Lemma qsum_map_sort_desc (f : A -> Q) (l : list A) :
  qsum (map f (sort_desc key l)) == qsum (map f l).
Proof.
  induction l as [|x l IH]; simpl; [reflexivity|].
  rewrite qsum_map_insert_desc, IH. reflexivity.
Qed.

Lemma map_insert_desc {B : Type} (g : A -> B) (key' : B -> Q) :
  (forall a, key' (g a) = key a) ->
  forall x l, map g (insert_desc key x l) = insert_desc key' (g x) (map g l).
Proof.
  intros Hk x l. induction l as [|y l IH]; simpl; [reflexivity|].
  rewrite !Hk. destruct (Qle_bool (key y) (key x)); simpl; [reflexivity|].
  now rewrite IH.
Qed.

Lemma map_sort_desc {B : Type} (g : A -> B) (key' : B -> Q) :
  (forall a, key' (g a) = key a) ->
  forall l, map g (sort_desc key l) = sort_desc key' (map g l).
Proof.
  intros Hk l. induction l as [|x l IH]; simpl; [reflexivity|].
  rewrite (map_insert_desc g key' Hk), IH. reflexivity.
Qed.
End SortFacts.

Lemma insert_desc_descending (x : tier) (l : list tier) :
  descending l -> descending (insert_desc rate x l).
Proof.
  induction l as [|y l IH]; simpl.
  - intros _. split; [constructor|exact I].
  - intros [Hy Hl]. qtest (Qle_bool (rate y) (rate x)); simpl.
    + split; [|split; assumption].
      constructor; [assumption|].
      eapply Forall_impl; [|exact Hy]. simpl. intros u Hu. lra.
    + split; [|now apply IH].
      apply Forall_insert_desc. split; [lra|assumption].
Qed.

Lemma sort_desc_descending (l : list tier) : descending (sort_desc rate l).
Proof.
  induction l as [|x l IH]; simpl; [exact I|].
  now apply insert_desc_descending.
Qed.

Lemma sort_desc_fixed (l : list tier) : descending l -> sort_desc rate l = l.
Proof.
  induction l as [|x l IH]; simpl; [reflexivity|].
  intros [Hx Hl]. rewrite IH by assumption.
  destruct l as [|y l']; simpl; [reflexivity|].
  inversion Hx as [|? ? Hy _]; subst.
  apply Qle_bool_true in Hy. now rewrite Hy.
Qed.

(* ------------------------------------------------------------------ *)
(** ** The value of the greedy loop *)

Lemma greedy_value_nonpos (l : list tier) (R : Q) :
  R <= 0 -> greedy_value R l = 0.
Proof.
  intro H. destruct l as [|t l]; simpl; [reflexivity|].
  apply Qle_bool_true in H. now rewrite H.
Qed.

Lemma greedy_value_compat (l : list tier) :
  forall R R', R == R' -> greedy_value R l == greedy_value R' l.
Proof.
  induction l as [|t l IH]; intros R R' HR; simpl; [reflexivity|].
  qtest (Qle_bool R 0); qtest (Qle_bool R' 0); try lra.
  assert (Hm : Qmin R (amount t) == Qmin R' (amount t))
    by (qmin R (amount t); qmin R' (amount t); lra).
  rewrite (IH (R - Qmin R (amount t)) (R' - Qmin R' (amount t))) by lra.
  rewrite Hm. reflexivity.
Qed.

(** One more unit of investment adds at most the greatest rate. *)
Lemma greedy_value_slope (r0 : Q) (l : list tier) :
  0 <= r0 ->
  Forall (fun t => rate t <= r0 /\ 0 <= amount t) l ->
  forall R R', 0 <= R -> R <= R' ->
    greedy_value R' l <= greedy_value R l + r0 * (R' - R).
Proof.
  intros Hr0. induction 1 as [|t l [Ht Ha] Hl IH]; intros R R' HR HRR'; simpl.
  - assert (0 <= r0 * (R' - R)) by (apply Qmult_le_0_compat; lra). lra.
  - qtest (Qle_bool R' 0).
    + qtest (Qle_bool R 0); [|lra].
      assert (0 <= r0 * (R' - R)) by (apply Qmult_le_0_compat; lra). lra.
    + set (m' := Qmin R' (amount t)).
      assert (Hm' : 0 <= m' /\ m' <= R') by (subst m'; qmin R' (amount t); lra).
      qtest (Qle_bool R 0).
      * pose proof (IH 0 (R' - m') (Qle_refl 0) ltac:(lra)) as H1.
        rewrite (greedy_value_nonpos l 0) in H1 by lra.
        assert (m' * rate t <= m' * r0) by (apply Qmult_le_mono_l; lra).
        assert (r0 * R == 0)
          by (assert (HR0 : R == 0) by lra; rewrite HR0; lra).
        lra.
      * set (m := Qmin R (amount t)).
        assert (Hm : m <= m' /\ R - m <= R' - m' /\ 0 <= R - m).
        { subst m m'. qmin R (amount t); qmin R' (amount t); lra. }
        destruct Hm as [Hm1 [Hm2 Hm3]].
        pose proof (IH (R - m) (R' - m') Hm3 Hm2) as H1.
        assert ((m' - m) * rate t <= (m' - m) * r0)
          by (apply Qmult_le_mono_l; lra).
        lra.
Qed.

(* ------------------------------------------------------------------ *)
(** ** Fills and the bound given by the greedy value *)

Lemma qsum_app (l1 l2 : list Q) : qsum (l1 ++ l2) == qsum l1 + qsum l2.
Proof.
  induction l1 as [|a l1 IH]; simpl; [lra|]. rewrite IH. lra.
Qed.

Lemma fill_sum_app (f1 f2 : fill) :
  fill_sum (f1 ++ f2) == fill_sum f1 + fill_sum f2.
Proof. unfold fill_sum. rewrite map_app. apply qsum_app. Qed.

Lemma fill_value_app (f1 f2 : fill) :
  fill_value (f1 ++ f2) == fill_value f1 + fill_value f2.
Proof. unfold fill_value. rewrite map_app. apply qsum_app. Qed.

Lemma fill_sum_nonneg (fa : fill) : fill_ok fa -> 0 <= fill_sum fa.
Proof.
  unfold fill_sum. induction 1 as [|[t a] fa [Ha _] _ IH]; simpl in *; lra.
Qed.

Lemma qsum_nonneg (ds : list Q) : Forall (fun d => 0 <= d) ds -> 0 <= qsum ds.
Proof.
  induction 1 as [|d ds Hd _ IH]; simpl; lra.
Qed.

(** On tiers sorted by descending rate, no fill within the investment
    earns more than the greedy loop. *)
Lemma greedy_value_bounds_sorted_fill (fa : fill) :
  descending (map fst fa) ->
  tiers_nonneg (map fst fa) ->
  fill_ok fa ->
  forall R, fill_sum fa <= R ->
            fill_value fa <= greedy_value R (map fst fa).
Proof.
  induction fa as [|[t a] fa IH]; intros Hd Hn Hok R HR.
  - simpl. unfold fill_value. simpl. lra.
  - simpl in Hd. destruct Hd as [Hle Hd].
    inversion Hn as [|? ? [Hrt Hat] Hn']; subst.
    inversion Hok as [|? ? [Ha0 Ha1] Hok']; subst. simpl in Ha0, Ha1.
    pose proof (fill_sum_nonneg fa Hok') as HS.
    specialize (IH Hd Hn' Hok').
    unfold fill_sum in HR, HS. unfold fill_value. simpl in HR |- *.
    fold (fill_value fa). fold (fill_sum fa) in HR, HS.
    qtest (Qle_bool R 0).
    + assert (Ha : a == 0) by lra.
      pose proof (IH 0 ltac:(lra)) as H1.
      rewrite greedy_value_nonpos in H1 by lra.
      rewrite Ha. lra.
    + set (m := Qmin R (amount t)).
      assert (Hm : a <= m /\ m <= R) by (subst m; qmin R (amount t); lra).
      pose proof (IH (R - a) ltac:(lra)) as H1.
      assert (Hall : Forall (fun u => rate u <= rate t /\ 0 <= amount u)
                       (map fst fa)).
      { apply Forall_forall. intros u Hu. split.
        - now apply (proj1 (Forall_forall _ _) Hle).
        - now apply (proj1 (Forall_forall _ _) Hn'). }
      pose proof (greedy_value_slope (rate t) (map fst fa) Hrt Hall
                    (R - m) (R - a) ltac:(lra) ltac:(lra)) as H2.
      lra.
Qed.

(** The same bound for tiers in any order, against the greedy loop on
    the sorted tiers. *)
Lemma greedy_value_bounds_fill (fa : fill) (R : Q) :
  tiers_nonneg (map fst fa) ->
  fill_ok fa ->
  fill_sum fa <= R ->
  fill_value fa <= greedy_value R (sort_desc rate (map fst fa)).
Proof.
  intros Hn Hok HR.
  assert (Hmap : map fst (sort_desc fill_key fa) = sort_desc rate (map fst fa))
    by (apply map_sort_desc; reflexivity).
  rewrite <- Hmap.
  assert (Hv : fill_value (sort_desc fill_key fa) == fill_value fa)
    by apply qsum_map_sort_desc.
  assert (Hs : fill_sum (sort_desc fill_key fa) == fill_sum fa)
    by apply qsum_map_sort_desc.
  rewrite <- Hv.
  apply greedy_value_bounds_sorted_fill.
  - rewrite Hmap. apply sort_desc_descending.
  - rewrite Hmap. now apply Forall_sort_desc.
  - now apply Forall_sort_desc.
  - lra.
Qed.

Lemma zero_fill (ts : list tier) :
  tiers_nonneg ts ->
  exists fa, map fst fa = ts /\ fill_ok fa
             /\ fill_sum fa == 0 /\ fill_value fa == 0.
Proof.
  induction 1 as [|t ts [_ Ha] _ [fa [Hm [Hok [Hs Hv]]]]].
  - exists []. repeat split; try reflexivity. constructor.
  - exists ((t, 0) :: fa). split; [simpl; now rewrite Hm|].
    split; [constructor; [simpl; lra|assumption]|].
    unfold fill_sum, fill_value in *. simpl. split; lra.
Qed.

(** The evaluator fills the tiers of an account within the deposit. *)
Lemma tier_sum_fill (ts : list tier) :
  tiers_nonneg ts ->
  forall R, 0 <= R ->
    exists fa, map fst fa = ts /\ fill_ok fa
               /\ fill_sum fa <= R /\ fill_value fa == tier_sum R ts.
Proof.
  induction 1 as [|t ts [Hr Ha] Hts IH]; intros R HR.
  - exists []. repeat split; try (simpl; lra); try constructor.
    unfold fill_sum. simpl. lra.
  - simpl. qtest (Qle_bool (Qmin R (amount t)) 0).
    + destruct (zero_fill (t :: ts)) as [fa [Hm [Hok [Hs Hv]]]].
      { constructor; [split|]; assumption. }
      exists fa. repeat split; try assumption; lra.
    + set (m := Qmin R (amount t)) in *.
      assert (Hm : m <= R /\ m <= amount t) by (subst m; qmin R (amount t); lra).
      destruct (IH (R - m) ltac:(lra)) as [fa [Hmap [Hok [Hs Hv]]]].
      exists ((t, m) :: fa). split; [simpl; now rewrite Hmap|].
      split; [constructor; [simpl; lra|assumption]|].
      unfold fill_sum, fill_value in *. simpl. split; lra.
Qed.

Lemma all_tiers_nonneg (banks : dict (list tier)) :
  banks_nonneg banks -> tiers_nonneg (all_tiers banks).
Proof.
  induction 1 as [|[n ts] banks Hts _ IH]; simpl; [constructor|].
  apply Forall_app. split; assumption.
Qed.

(** A split of the investment is a fill of all tiers. *)
Lemma true_interest_fill (banks : dict (list tier)) :
  banks_nonneg banks ->
  forall ds, Forall (fun d => 0 <= d) ds ->
    exists fa, map fst fa = all_tiers banks /\ fill_ok fa
               /\ fill_sum fa <= qsum ds
               /\ fill_value fa == true_interest banks ds.
Proof.
  induction 1 as [|[n ts] banks Hts Hbanks IH]; intros ds Hds.
  - exists []. simpl. split; [reflexivity|]. split; [constructor|]. split.
    + unfold fill_sum. simpl. now apply qsum_nonneg.
    + reflexivity.
  - simpl in Hts. destruct ds as [|d ds].
    + destruct (zero_fill (all_tiers ((n, ts) :: banks)))
        as [fa [Hm [Hok [Hs Hv]]]].
      { apply all_tiers_nonneg. constructor; assumption. }
      exists fa. repeat split; try assumption; simpl; lra.
    + inversion Hds as [|? ? Hd Hds']; subst.
      destruct (tier_sum_fill ts Hts d Hd) as [f1 [Hm1 [Hok1 [Hs1 Hv1]]]].
      destruct (IH ds Hds') as [f2 [Hm2 [Hok2 [Hs2 Hv2]]]].
      exists (f1 ++ f2). split; [simpl; now rewrite map_app, Hm1, Hm2|].
      split; [apply Forall_app; now split|].
      rewrite fill_sum_app, fill_value_app. simpl.
      rewrite calculate_total_tier_sum. split; lra.
Qed.

(** No split earns more than the greedy loop on the sorted tiers. *)
Lemma greedy_value_bounds_split (banks : dict (list tier)) (total : Q)
    (ds : list Q) :
  banks_nonneg banks ->
  Forall (fun d => 0 <= d) ds ->
  qsum ds <= total ->
  true_interest banks ds
  <= greedy_value total (sort_desc rate (all_tiers banks)).
Proof.
  intros Hb Hds Hsum.
  destruct (true_interest_fill banks Hb ds Hds) as [fa [Hm [Hok [Hs Hv]]]].
  rewrite <- Hv, <- Hm.
  apply greedy_value_bounds_fill; [|assumption|lra].
  rewrite Hm. now apply all_tiers_nonneg.
Qed.

(* ------------------------------------------------------------------ *)
(** ** The greedy value is attained by a split *)

(** Inserting a tier in the sorted list: the greedy loop puts some
    amount in the new tier and treats the others as before. *)
Lemma greedy_value_insert (x : tier) (s : list tier) :
  0 <= amount x ->
  Forall (fun t => 0 <= amount t) s ->
  forall R, 0 <= R ->
    exists a, 0 <= a /\ a <= amount x /\ a <= R
              /\ greedy_value R (insert_desc rate x s)
                 == a * rate x + greedy_value (R - a) s.
Proof.
  intros Hx. induction 1 as [|y s Hy Hs IH]; intros R HR.
  - simpl. qtest (Qle_bool R 0).
    + exists 0. repeat split; lra.
    + exists (Qmin R (amount x)).
      qmin R (amount x); repeat split; lra.
  - cbn [insert_desc]. destruct (Qle_bool (rate y) (rate x)).
    + remember (y :: s) as s0. cbn [greedy_value].
      qtest (Qle_bool R 0).
      * exists 0. rewrite (greedy_value_nonpos s0 (R - 0)) by lra.
        repeat split; lra.
      * exists (Qmin R (amount x)).
        qmin R (amount x); repeat split; lra.
    + cbn [greedy_value]. qtest (Qle_bool R 0).
      * exists 0. rewrite (greedy_value_nonpos s (R - 0 - _)).
        -- qtest (Qle_bool (R - 0) 0); repeat split; lra.
        -- qmin (R - 0) (amount y); lra.
      * set (my := Qmin R (amount y)).
        assert (Hmy : 0 <= my /\ my <= R) by (subst my; qmin R (amount y); lra).
        destruct (IH (R - my) ltac:(lra)) as [a [Ha0 [Hax [HaR Hv]]]].
        exists a. split; [exact Ha0|]. split; [exact Hax|]. split; [lra|].
        rewrite Hv. qtest (Qle_bool (R - a) 0).
        -- assert (Hmy0 : my == 0) by lra.
           rewrite (greedy_value_nonpos s (R - my - a)) by lra.
           rewrite Hmy0. lra.
        -- set (my' := Qmin (R - a) (amount y)).
           assert (Em : my' == my).
           { subst my my'. qmin R (amount y); qmin (R - a) (amount y); lra. }
           rewrite (greedy_value_compat s (R - a - my') (R - my - a)) by lra.
           rewrite Em. lra.
Qed.

(** The greedy value on the sorted tiers is the value of a fill of the
    tiers in their original order. *)
Lemma greedy_value_attained (l : list tier) :
  Forall (fun t => 0 <= amount t) l ->
  forall R, 0 <= R ->
    exists fa, map fst fa = l /\ fill_ok fa /\ fill_sum fa <= R
               /\ fill_value fa == greedy_value R (sort_desc rate l).
Proof.
  induction 1 as [|x l Hx Hl IH]; intros R HR.
  - exists []. split; [reflexivity|]. split; [constructor|].
    unfold fill_sum, fill_value. simpl. split; lra.
  - simpl.
    destruct (greedy_value_insert x (sort_desc rate l) Hx
                (proj2 (Forall_sort_desc rate _ l) Hl) R HR)
      as [a [Ha0 [Hax [HaR Hv]]]].
    destruct (IH (R - a) ltac:(lra)) as [fa [Hm [Hok [Hs Hfv]]]].
    exists ((x, a) :: fa). split; [simpl; now rewrite Hm|].
    split; [constructor; [simpl; lra|assumption]|].
    rewrite Hv. unfold fill_sum, fill_value in *. simpl. split; lra.
Qed.

(** With positive capacities the evaluator and the greedy loop break at
    the same tier. *)
Lemma tier_sum_greedy_value (ts : list tier) :
  Forall (fun t => 0 <= rate t /\ 0 < amount t) ts ->
  forall R, tier_sum R ts == greedy_value R ts.
Proof.
  induction 1 as [|t ts [_ Ha] _ IH]; intro R; simpl; [reflexivity|].
  qtest (Qle_bool (Qmin R (amount t)) 0); qtest (Qle_bool R 0).
  - reflexivity.
  - exfalso. qmin R (amount t); lra.
  - exfalso. qmin R (amount t); lra.
  - rewrite IH. reflexivity.
Qed.

Lemma concave_nonneg (ts : list tier) : concave_account ts -> tiers_nonneg ts.
Proof.
  intros [H _]. eapply Forall_impl; [|exact H].
  intros t [Hr Ha]. split; lra.
Qed.

Lemma concave_banks_nonneg (banks : dict (list tier)) :
  Forall (fun b => concave_account (snd b)) banks -> banks_nonneg banks.
Proof.
  intro H. eapply Forall_impl; [|exact H].
  intros b Hb. now apply concave_nonneg.
Qed.

(** A fill of all tiers is matched by a split of the same sum, when the
    accounts are concave. *)
Lemma fill_to_split (banks : dict (list tier)) :
  Forall (fun b => concave_account (snd b)) banks ->
  forall fa, map fst fa = all_tiers banks -> fill_ok fa ->
    exists ds, List.length ds = List.length banks
               /\ Forall (fun d => 0 <= d) ds
               /\ qsum ds == fill_sum fa
               /\ fill_value fa <= true_interest banks ds.
Proof.
  induction 1 as [|[n ts] banks Hts Hbanks IH]; intros fa Hmap Hok.
  - exists []. simpl in Hmap. apply map_eq_nil in Hmap. subst fa.
    unfold fill_sum, fill_value. simpl. repeat split; try constructor; lra.
  - simpl in Hmap, Hts. apply map_eq_app in Hmap.
    destruct Hmap as [f1 [f2 [-> [Hm1 Hm2]]]].
    apply Forall_app in Hok. destruct Hok as [Hok1 Hok2].
    destruct (IH f2 Hm2 Hok2) as [ds [Hlen [Hds [Hsum Hval]]]].
    exists (fill_sum f1 :: ds).
    split; [simpl; now rewrite Hlen|].
    split; [constructor; [now apply fill_sum_nonneg|assumption]|].
    rewrite fill_sum_app, fill_value_app. simpl.
    split; [lra|].
    assert (H1 : fill_value f1
                 <= greedy_value (fill_sum f1) (sort_desc rate (map fst f1))).
    { apply greedy_value_bounds_fill; [|assumption|lra].
      rewrite Hm1. now apply concave_nonneg. }
    rewrite Hm1, (sort_desc_fixed ts (proj2 Hts)) in H1.
    rewrite <- (tier_sum_greedy_value ts (proj1 Hts)) in H1.
    rewrite calculate_total_tier_sum. lra.
Qed.

(* ------------------------------------------------------------------ *)
(** ** The greedy allocator against every split *)

Lemma as_tier_flatten (banks : dict (list tier)) :
  map as_tier (flatten_tiers banks) = all_tiers banks.
Proof.
  unfold flatten_tiers, all_tiers.
  induction banks as [|[n ts] banks IH]; simpl; [reflexivity|].
  rewrite map_app, IH. f_equal.
  rewrite map_map. transitivity (map (fun t : tier => t) ts).
  - apply map_ext. now intros [r a].
  - apply map_id.
Qed.

Lemma simple_allocation_total (banks : dict (list tier)) (total : Q) :
  ~ total == 0 ->
  exists r,
    simple_allocation banks total = Ok r
    /\ total_annual_interest r
       == greedy_value total (sort_desc rate (all_tiers banks)).
Proof.
  intro Hnz.
  destruct (simple_allocation_nonzero banks total Hnz) as [r [Hr Hdef]].
  exists r. split; [exact Hr|]. subst r. cbn [total_annual_interest].
  rewrite allocate_loop_total.
  rewrite (map_sort_desc ft_rate as_tier rate) by reflexivity.
  rewrite as_tier_flatten. lra.
Qed.

(** A deposit list within the investment can be completed to a split
    that earns at least as much, when there is an account. *)
Lemma complete_split (banks : dict (list tier)) (total : Q) (ds : list Q) :
  banks_nonneg banks ->
  banks <> [] ->
  List.length ds = List.length banks ->
  Forall (fun d => 0 <= d) ds ->
  qsum ds <= total ->
  exists ds', is_split banks total ds'
              /\ true_interest banks ds <= true_interest banks ds'.
Proof.
  intros Hb Hne Hlen Hds Hsum.
  destruct banks as [|[n ts] banks]; [contradiction|].
  destruct ds as [|d ds]; [discriminate|].
  inversion Hds as [|? ? Hd Hds']; subst.
  inversion Hb as [|? ? Hts _]; subst. simpl in Hts, Hsum.
  exists ((d + (total - (d + qsum ds))) :: ds). split.
  - split; [exact Hlen|]. split.
    + constructor; [lra|assumption].
    + simpl. lra.
  - simpl. rewrite !calculate_total_tier_sum.
    pose proof (tier_sum_mono ts Hts d (d + (total - (d + qsum ds)))
                  ltac:(lra)). lra.
Qed.

(** X25.  For every set of accounts with non-negative rates and
    capacities and every positive investment, the total of
    [simple_allocation] is at least the interest of any split of the
    investment under the tier semantics of [calculate_bank_interest]. *)
Theorem simple_allocation_bounds_every_split
    (banks : dict (list tier)) (total : Q) :
  banks_nonneg banks ->
  0 < total ->
  exists r,
    simple_allocation banks total = Ok r
    /\ forall ds, is_split banks total ds ->
                  true_interest banks ds <= total_annual_interest r.
Proof.
  intros Hb Hpos.
  destruct (simple_allocation_total banks total ltac:(lra)) as [r [Hr Hv]].
  exists r. split; [exact Hr|].
  intros ds [_ [Hds Hsum]]. rewrite Hv.
  apply greedy_value_bounds_split; [assumption|assumption|lra].
Qed.

(** C2, as stated, fails: on one account whose second tier pays more
    than its first, with an investment of 100, the greedy total is 5
    while the only split earns 1. *)
Lemma greedy_total_not_maximum :
  exists r,
    simple_allocation ex_rising_banks 100 = Ok r
    /\ total_annual_interest r == 5
    /\ (forall ds, is_split ex_rising_banks 100 ds ->
                   true_interest ex_rising_banks ds == 1)
    /\ ~ is_maximum ex_rising_banks 100 (total_annual_interest r).
Proof.
  eexists. split; [vm_compute; reflexivity|]. split; [reflexivity|].
  assert (Hone : forall ds, is_split ex_rising_banks 100 ds ->
                            true_interest ex_rising_banks ds == 1).
  { intros ds [Hlen [Hds Hsum]].
    destruct ds as [|d [|d' ds]]; try discriminate.
    simpl in Hsum |- *. rewrite calculate_total_tier_sum.
    set (ts := [mkTier (1 # 100) 100; mkTier (5 # 100) 100]).
    assert (Hts : tiers_nonneg ts)
      by (repeat constructor; vm_compute; discriminate).
    pose proof (tier_sum_mono ts Hts d 100 ltac:(lra)) as H1.
    pose proof (tier_sum_mono ts Hts 100 d ltac:(lra)) as H2.
    assert (E : tier_sum 100 ts == 1) by reflexivity.
    lra. }
  split; [exact Hone|].
  intros [[ds [Hsplit Hv]] _].
  rewrite (Hone ds Hsplit) in Hv. vm_compute in Hv. discriminate.
Qed.

(** A tier of capacity zero in front of a paying tier has the same
    effect: the greedy total is 3 and every split earns 0. *)
Lemma greedy_total_not_maximum_blocked :
  exists r,
    simple_allocation ex_blocked_banks 100 = Ok r
    /\ total_annual_interest r == 3
    /\ forall ds, true_interest ex_blocked_banks ds == 0.
Proof.
  eexists. split; [vm_compute; reflexivity|]. split; [reflexivity|].
  intros [|d [|d' ds]]; simpl; try reflexivity.
  - rewrite calculate_total_tier_sum. simpl.
    assert (H : Qle_bool (Qmin d 0) 0 = true)
      by (apply Qle_bool_true; qmin d 0; lra).
    rewrite H. reflexivity.
  - rewrite calculate_total_tier_sum. simpl.
    assert (H : Qle_bool (Qmin d 0) 0 = true)
      by (apply Qle_bool_true; qmin d 0; lra).
    rewrite H. reflexivity.
Qed.

(** Without an account a positive investment has no split at all. *)
Lemma no_split_without_accounts (total : Q) (ds : list Q) :
  0 < total -> ~ is_split [] total ds.
Proof.
  intros Hpos [Hlen [_ Hsum]].
  destruct ds; [|discriminate]. simpl in Hsum. lra.
Qed.

(** C2, amended.  When every account has positive capacities and rates
    that are non-negative and do not increase along its tiers, there is
    at least one account and the investment is positive, the total
    annual interest of [simple_allocation] is the greatest interest of a
    split of the investment under the tier semantics of
    [calculate_bank_interest]. *)
Theorem simple_allocation_maximal (banks : dict (list tier)) (total : Q) :
  Forall (fun b => concave_account (snd b)) banks ->
  banks <> [] ->
  0 < total ->
  exists r,
    simple_allocation banks total = Ok r
    /\ is_maximum banks total (total_annual_interest r).
Proof.
  intros Hc Hne Hpos.
  pose proof (concave_banks_nonneg banks Hc) as Hb.
  destruct (simple_allocation_total banks total ltac:(lra)) as [r [Hr Hv]].
  exists r. split; [exact Hr|].
  assert (Hup : forall ds, Forall (fun d => 0 <= d) ds -> qsum ds <= total ->
                  true_interest banks ds <= total_annual_interest r).
  { intros ds Hds Hsum. rewrite Hv.
    now apply greedy_value_bounds_split. }
  split.
  - assert (Hamt : Forall (fun t => 0 <= amount t) (all_tiers banks)).
    { eapply Forall_impl; [|exact (all_tiers_nonneg banks Hb)].
      now intros t [_ Ha]. }
    destruct (greedy_value_attained (all_tiers banks) Hamt total ltac:(lra))
      as [fa [Hm [Hok [Hs Hfv]]]].
    destruct (fill_to_split banks Hc fa Hm Hok)
      as [ds [Hlen [Hds [Hsum Hval]]]].
    destruct (complete_split banks total ds Hb Hne Hlen Hds ltac:(lra))
      as [ds' [Hsplit Hle]].
    exists ds'. split; [exact Hsplit|].
    destruct Hsplit as [_ [Hds' Hsum']].
    pose proof (Hup ds' Hds' ltac:(lra)). lra.
  - intros ds [_ [Hds Hsum]]. apply Hup; [assumption|lra].
Qed.

Lemma simple_allocation_maximal_witness :
  exists r,
    simple_allocation ex_tiered_banks 3000 = Ok r
    /\ is_maximum ex_tiered_banks 3000 (total_annual_interest r).
Proof.
  apply (simple_allocation_maximal ex_tiered_banks 3000).
  - repeat constructor; vm_compute; discriminate || reflexivity.
  - discriminate.
  - reflexivity.
Defined.

Lemma create_optimization_problem_formulation_witness :
  exists p,
    create_optimization_problem (simplify ex_banks) 60000 = Ok p
    /\ nth_error (c p) 1 = Some (- (25 # 1000))
    /\ nth_error (bounds p) 1
       = Some (0, Qmin (py_sum (map amount [mkTier (25 # 1000) 80000])) 60000).
Proof.
  pose proof (create_optimization_problem_formulation
                (simplify ex_banks) 60000) as H.
  destruct (create_optimization_problem (simplify ex_banks) 60000)
    as [p|e] eqn:E; [|vm_compute in E; discriminate E].
  exists p. split; [reflexivity|].
  destruct H as [_ [_ [_ [_ [_ H]]]]].
  destruct (H 1%nat "B"%string [mkTier (25 # 1000) 80000] eq_refl)
    as [t0 [rest [Hts [Hc [Hb _]]]]].
  inversion Hts; subst. split; assumption.
Defined.

(* ================================================================== *)
(** * Further properties of the engine *)

(* ------------------------------------------------------------------ *)
(** ** Accounting of the tier evaluator *)

Lemma interest_loop_breakdown (ts : list tier) :
  forall total rem bd,
    breakdown (interest_loop ts total rem bd) = bd ++ tier_rows rem ts.
Proof.
  induction ts as [|t rest IH]; intros total rem bd; simpl.
  - now rewrite app_nil_r.
  - destruct (Qle_bool (Qmin rem (amount t)) 0); simpl.
    + now rewrite app_nil_r.
    + rewrite IH, <- app_assoc. reflexivity.
Qed.

Lemma calculate_breakdown (d : Q) (ts : list tier) :
  breakdown (calculate_bank_interest d ts)
  = if Qle_bool d 0 then [] else tier_rows d ts.
Proof.
  unfold calculate_bank_interest.
  destruct (Qle_bool d 0); [reflexivity|].
  now rewrite interest_loop_breakdown.
Qed.

Lemma tier_rows_nonpos (ts : list tier) (rem : Q) :
  rem <= 0 -> tier_rows rem ts = [].
Proof.
  intro H. destruct ts as [|t rest]; simpl; [reflexivity|].
  assert (E : Qle_bool (Qmin rem (amount t)) 0 = true).
  { apply Qle_bool_true. qmin rem (amount t); lra. }
  now rewrite E.
Qed.

Lemma calculate_breakdown_rows (d : Q) (ts : list tier) :
  breakdown (calculate_bank_interest d ts) = tier_rows d ts.
Proof.
  rewrite calculate_breakdown.
  qtest (Qle_bool d 0); [|reflexivity].
  now rewrite tier_rows_nonpos.
Qed.

Lemma tier_rows_interest (ts : list tier) :
  forall rem, qsum (map tier_interest (tier_rows rem ts)) == tier_sum rem ts.
Proof.
  induction ts as [|t rest IH]; intro rem; simpl; [reflexivity|].
  destruct (Qle_bool (Qmin rem (amount t)) 0); simpl; [reflexivity|].
  rewrite IH. reflexivity.
Qed.

Lemma tier_rows_consistent (ts : list tier) :
  forall rem, Forall row_consistent (tier_rows rem ts).
Proof.
  induction ts as [|t rest IH]; intro rem; simpl; [constructor|].
  destruct (Qle_bool (Qmin rem (amount t)) 0); [constructor|].
  constructor; [split; reflexivity|apply IH].
Qed.

(** X1.  The breakdown of [calculate_bank_interest] accounts for the
    total: the total interest is the sum of the interests of the rows,
    and in every row the interest is amount times rate and the monthly
    interest a twelfth of it. *)
Theorem calculate_bank_interest_accounting (d : Q) (ts : list tier) :
  total_interest (calculate_bank_interest d ts)
  == qsum (map tier_interest (breakdown (calculate_bank_interest d ts)))
  /\ Forall row_consistent (breakdown (calculate_bank_interest d ts)).
Proof.
  rewrite calculate_breakdown_rows. split.
  - rewrite calculate_total_tier_sum, tier_rows_interest. reflexivity.
  - apply tier_rows_consistent.
Qed.

Lemma tier_rows_follow (ts : list tier) :
  forall rem,
    Forall2 (fun e t => tier_rate e = rate t
                        /\ 0 < amount_in_tier e
                        /\ amount_in_tier e <= amount t)
      (tier_rows rem ts)
      (firstn (List.length (tier_rows rem ts)) ts).
Proof.
  induction ts as [|t rest IH]; intro rem; simpl; [constructor|].
  qtest (Qle_bool (Qmin rem (amount t)) 0); simpl; [constructor|].
  constructor; [|apply IH].
  simpl. split; [reflexivity|]. split; [lra|].
  qmin rem (amount t); lra.
Qed.

(** X2.  The rows of the breakdown follow the tiers in their order,
    without a gap: row [i] carries the rate of tier [i], a positive
    amount, and no more than the capacity of tier [i]; there are never
    more rows than tiers. *)
Theorem calculate_bank_interest_rows_follow_tiers (d : Q) (ts : list tier) :
  (List.length (breakdown (calculate_bank_interest d ts))
   <= List.length ts)%nat
  /\ Forall2 (fun e t => tier_rate e = rate t
                         /\ 0 < amount_in_tier e
                         /\ amount_in_tier e <= amount t)
       (breakdown (calculate_bank_interest d ts))
       (firstn (List.length (breakdown (calculate_bank_interest d ts))) ts).
Proof.
  rewrite calculate_breakdown_rows.
  pose proof (tier_rows_follow ts d) as H. split; [|exact H].
  apply Forall2_length in H. rewrite H, length_firstn. apply Nat.le_min_r.
Qed.

Lemma tier_rows_amount_le (ts : list tier) :
  forall rem, 0 <= rem ->
    qsum (map amount_in_tier (tier_rows rem ts)) <= rem.
Proof.
  induction ts as [|t rest IH]; intros rem Hrem; simpl; [exact Hrem|].
  qtest (Qle_bool (Qmin rem (amount t)) 0); simpl; [exact Hrem|].
  assert (Hm : Qmin rem (amount t) <= rem) by (qmin rem (amount t); lra).
  pose proof (IH (rem - Qmin rem (amount t)) ltac:(lra)). lra.
Qed.

Lemma tier_rows_amount_positive (ts : list tier) :
  Forall (fun t => 0 < amount t) ts ->
  forall rem, 0 <= rem ->
    qsum (map amount_in_tier (tier_rows rem ts)) == Qmin rem (capacity ts).
Proof.
  unfold capacity.
  induction 1 as [|t rest Ha Hrest IH]; intros rem Hrem; simpl.
  - qmin rem 0; lra.
  - assert (Hcap : 0 <= qsum (map amount rest)).
    { apply qsum_nonneg. apply Forall_forall. intros a Hin.
      apply in_map_iff in Hin. destruct Hin as [u [<- Hu]].
      pose proof (proj1 (Forall_forall _ _) Hrest u Hu). simpl in *. lra. }
    qtest (Qle_bool (Qmin rem (amount t)) 0); simpl.
    + qmin rem (amount t); qmin rem (amount t + qsum (map amount rest)); lra.
    + rewrite (IH (rem - Qmin rem (amount t))) by (qmin rem (amount t); lra).
      qmin rem (amount t);
        qmin (rem - Qmin rem (amount t)) (qsum (map amount rest));
        qmin rem (amount t + qsum (map amount rest)); lra.
Qed.

(** X3.  For a deposit [d >= 0] the amounts placed in the tiers add up
    to at most [d]; when every capacity is positive they add up to
    [min d capacity]: the deposit is placed in full when it fits and is
    capped at the capacity of the account otherwise. *)
Theorem calculate_bank_interest_places_deposit (d : Q) (ts : list tier) :
  0 <= d ->
  qsum (map amount_in_tier (breakdown (calculate_bank_interest d ts))) <= d
  /\ (Forall (fun t => 0 < amount t) ts ->
      qsum (map amount_in_tier (breakdown (calculate_bank_interest d ts)))
      == Qmin d (capacity ts)).
Proof.
  intro Hd. rewrite calculate_breakdown_rows. split.
  - now apply tier_rows_amount_le.
  - intro Hpos. now apply tier_rows_amount_positive.
Qed.

Lemma calculate_bank_interest_places_deposit_witness :
  qsum (map amount_in_tier
          (breakdown (calculate_bank_interest 1500
                        [mkTier (5 # 100) 1000; mkTier (3 # 100) 2000])))
  <= 1500.
Proof.
  apply (calculate_bank_interest_places_deposit 1500).
  vm_compute. discriminate.
Defined.

Lemma tier_sum_le_full (ts : list tier) :
  tiers_nonneg ts -> forall rem, tier_sum rem ts <= full_interest ts.
Proof.
  unfold full_interest.
  induction 1 as [|t rest [Hr Ha] Hrest IH]; intro rem; simpl; [lra|].
  assert (Hfull : 0 <= qsum (map (fun u => amount u * rate u) rest)).
  { pose proof (IH 0). rewrite tier_sum_nonpos in H by lra. exact H. }
  assert (0 <= amount t * rate t) by (apply Qmult_le_0_compat; lra).
  qtest (Qle_bool (Qmin rem (amount t)) 0); [lra|].
  specialize (IH (rem - Qmin rem (amount t))).
  assert (Qmin rem (amount t) * rate t <= amount t * rate t).
  { apply Qmult_le_compat_r; [|lra]. qmin rem (amount t); lra. }
  lra.
Qed.

Lemma tier_sum_saturated (ts : list tier) :
  Forall (fun t => 0 < amount t) ts ->
  forall rem, capacity ts <= rem -> tier_sum rem ts == full_interest ts.
Proof.
  unfold capacity, full_interest.
  induction 1 as [|t rest Ha Hrest IH]; intros rem Hrem; simpl;
    [reflexivity|].
  assert (Hcap : 0 <= qsum (map amount rest)).
  { apply qsum_nonneg. apply Forall_forall. intros a Hin.
    apply in_map_iff in Hin. destruct Hin as [u [<- Hu]].
    pose proof (proj1 (Forall_forall _ _) Hrest u Hu). simpl in *. lra. }
  simpl in Hrem.
  assert (Em : Qmin rem (amount t) == amount t) by (apply Q.min_r; lra).
  qtest (Qle_bool (Qmin rem (amount t)) 0); [lra|].
  rewrite (IH (rem - Qmin rem (amount t))) by lra.
  rewrite Em. reflexivity.
Qed.

(** X4.  With non-negative rates and capacities the interest of an
    account lies between 0 and the interest of the full account; with
    positive capacities a deposit of at least the capacity earns exactly
    the interest of the full account, so money beyond the capacity earns
    nothing. *)
Theorem calculate_bank_interest_saturates (d : Q) (ts : list tier) :
  tiers_nonneg ts ->
  0 <= total_interest (calculate_bank_interest d ts)
  /\ total_interest (calculate_bank_interest d ts) <= full_interest ts
  /\ (Forall (fun t => 0 < amount t) ts -> capacity ts <= d ->
      total_interest (calculate_bank_interest d ts) == full_interest ts).
Proof.
  intro Hts. rewrite calculate_total_tier_sum.
  split; [now apply tier_sum_nonneg|].
  split; [now apply tier_sum_le_full|].
  intros Hpos Hcap. now apply tier_sum_saturated.
Qed.

Lemma calculate_bank_interest_saturates_witness :
  total_interest
    (calculate_bank_interest 5000 [mkTier (5 # 100) 1000; mkTier (3 # 100) 2000])
  == full_interest [mkTier (5 # 100) 1000; mkTier (3 # 100) 2000].
Proof.
  apply (calculate_bank_interest_saturates 5000).
  - repeat constructor; vm_compute; discriminate.
  - repeat constructor.
  - vm_compute. discriminate.
Defined.

Lemma tier_sum_rate_bound (r0 : Q) (ts : list tier) :
  Forall (fun t => rate t <= r0) ts ->
  0 <= r0 ->
  forall rem, 0 <= rem -> tier_sum rem ts <= r0 * rem.
Proof.
  intros Hts Hr0.
  induction Hts as [|t rest Hr Hrest IH]; intros rem Hrem; simpl.
  - apply Qmult_le_0_compat; lra.
  - assert (0 <= r0 * rem) by (apply Qmult_le_0_compat; lra).
    qtest (Qle_bool (Qmin rem (amount t)) 0); [lra|].
    set (m := Qmin rem (amount t)) in *.
    assert (Hm : m <= rem) by (subst m; qmin rem (amount t); lra).
    pose proof (IH (rem - m) ltac:(lra)).
    assert (m * rate t <= m * r0) by (apply Qmult_le_mono_l; lra).
    lra.
Qed.

(** X5.  An account never pays more than its best rate on the deposit:
    when no rate exceeds [r0 >= 0], a deposit [d >= 0] earns at most
    [r0 * d]. *)
Theorem calculate_bank_interest_rate_bound (r0 d : Q) (ts : list tier) :
  Forall (fun t => rate t <= r0) ts ->
  0 <= r0 ->
  0 <= d ->
  total_interest (calculate_bank_interest d ts) <= r0 * d.
Proof.
  intros Hts Hr0 Hd. rewrite calculate_total_tier_sum.
  now apply tier_sum_rate_bound.
Qed.

Lemma calculate_bank_interest_rate_bound_witness :
  total_interest
    (calculate_bank_interest 1500 [mkTier (5 # 100) 1000; mkTier (3 # 100) 2000])
  <= (5 # 100) * 1500.
Proof.
  apply (calculate_bank_interest_rate_bound (5 # 100) 1500).
  - repeat constructor; vm_compute; discriminate.
  - vm_compute. discriminate.
  - vm_compute. discriminate.
Defined.

(* ------------------------------------------------------------------ *)
(** ** Feasibility of the formulated problem *)

Lemma py_sum_qsum (l : list Q) : py_sum l == qsum l.
Proof. unfold py_sum. rewrite fold_left_Qplus. lra. Qed.

Lemma capacity_nonneg (ts : list tier) : tiers_nonneg ts -> 0 <= capacity ts.
Proof.
  unfold capacity. induction 1 as [|t rest [_ Ha] _ IH]; simpl; lra.
Qed.

Lemma bounded_vector_sum (total : Q) (sb : dict (list tier)) :
  forall x,
    Forall2 (fun v b => 0 <= v
                        /\ v <= Qmin (py_sum (map amount (snd b))) total)
      x sb ->
    0 <= qsum x /\ qsum x <= total_capacity sb.
Proof.
  unfold total_capacity.
  induction sb as [|b sb IH]; intros x H;
    inversion H as [|v b' x' sb' [Hv0 Hv] Hrest]; subst; simpl.
  - lra.
  - destruct (IH _ Hrest) as [H0 H1].
    assert (Qmin (py_sum (map amount (snd b))) total <= capacity (snd b)).
    { unfold capacity. rewrite <- py_sum_qsum.
      qmin (py_sum (map amount (snd b))) total; lra. }
    lra.
Qed.

Lemma first_fit_spec (bs : list (Q * Q)) :
  Forall (fun b => fst b <= 0 /\ 0 <= snd b) bs ->
  forall rem, 0 <= rem ->
    Forall2 (fun v b => fst b <= v /\ v <= snd b) (fst (first_fit bs rem)) bs
    /\ qsum (fst (first_fit bs rem)) + snd (first_fit bs rem) == rem
    /\ 0 <= snd (first_fit bs rem)
    /\ (rem <= qsum (map snd bs) -> snd (first_fit bs rem) == 0).
Proof.
  induction 1 as [|[lb ub] bs [Hlb Hub] Hbs IH]; intros rem Hrem; simpl.
  - split; [constructor|]. split; [lra|]. split; [lra|]. intro. lra.
  - simpl in Hlb, Hub.
    assert (Hsum : 0 <= qsum (map snd bs)).
    { apply qsum_nonneg. apply Forall_forall. intros a Hin.
      apply in_map_iff in Hin. destruct Hin as [u [<- Hu]].
      exact (proj2 (proj1 (Forall_forall _ _) Hbs u Hu)). }
    assert (Hm : 0 <= Qmin rem ub /\ Qmin rem ub <= rem /\ Qmin rem ub <= ub)
      by (qmin rem ub; lra).
    destruct Hm as [Hm0 [Hm1 Hm2]].
    destruct (IH (rem - Qmin rem ub) ltac:(lra)) as [H1 [H2 [H3 H4]]].
    destruct (first_fit bs (rem - Qmin rem ub)) as [xs r]. simpl in *.
    pose proof (Qred_correct (Qmin rem ub)) as Hred.
    split; [constructor; [simpl; split; lra|assumption]|].
    split; [lra|]. split; [assumption|].
    intro Hle. apply H4. qmin rem ub; lra.
Qed.

Lemma sum_min_capacity (total : Q) (sb : dict (list tier)) :
  banks_nonneg sb ->
  0 <= total ->
  Qmin (total_capacity sb) total
  <= qsum (map snd
             (map (fun b => (0, Qmin (py_sum (map amount (snd b))) total)) sb)).
Proof.
  unfold total_capacity. intros Hsb Htot.
  induction Hsb as [|b sb Hb Hsb IH]; simpl.
  - qmin 0 total; lra.
  - pose proof (capacity_nonneg _ Hb) as Hc.
    assert (Hrest : 0 <= qsum (map (fun b => capacity (snd b)) sb)).
    { apply qsum_nonneg. apply Forall_forall. intros a Hin.
      apply in_map_iff in Hin. destruct Hin as [u [<- Hu]].
      apply capacity_nonneg. exact (proj1 (Forall_forall _ _) Hsb u Hu). }
    assert (Hpy : py_sum (map amount (snd b)) == capacity (snd b))
      by apply py_sum_qsum.
    revert IH.
    qmin (py_sum (map amount (snd b))) total;
      qmin (qsum (map (fun b => capacity (snd b)) sb)) total;
      qmin (capacity (snd b) + qsum (map (fun b => capacity (snd b)) sb)) total;
      intro IH; lra.
Qed.

(** X6.  The problem built for accounts with non-negative capacities
    has a solution within its bounds exactly when the investment is
    between 0 and the capacity of all accounts together; beyond that
    capacity no vector a solver may return exists. *)
Theorem formulation_feasible_iff
    (banks : dict (list tier)) (total : Q) (p : lp_problem) :
  banks_nonneg banks ->
  create_optimization_problem banks total = Ok p ->
  ((exists x, lp_feasible p x)
   <-> 0 <= total /\ total <= total_capacity banks).
Proof.
  intros Hb Hp.
  rewrite create_optimization_problem_eq in Hp.
  destruct (forallb has_tier banks); [|discriminate].
  inversion Hp; subst p; clear Hp.
  unfold lp_feasible, honours_bounds, meets_equalities. simpl. split.
  - intros [x [Hbd Heq]].
    assert (Hlen : List.length x = List.length banks).
    { apply Forall2_length in Hbd. now rewrite length_map in Hbd. }
    inversion Heq as [|? ? ? ? Hdot _]; subst.
    rewrite <- Hlen, dot_ones in Hdot.
    assert (H2 : Forall2 (fun v b => 0 <= v
                   /\ v <= Qmin (py_sum (map amount (snd b))) total) x banks).
    { clear -Hbd. revert x Hbd.
      induction banks as [|b sb IH]; intros x H; inversion H; subst;
        constructor; [assumption|now apply IH]. }
    destruct (bounded_vector_sum total banks x H2). lra.
  - intros [H0 Hcap].
    set (bs := map (fun b => (0, Qmin (py_sum (map amount (snd b))) total))
                 banks).
    assert (Hbs : Forall (fun b => fst b <= 0 /\ 0 <= snd b) bs).
    { subst bs. apply Forall_forall. intros b Hin.
      apply in_map_iff in Hin. destruct Hin as [u [<- Hu]]. simpl.
      split; [lra|].
      pose proof (capacity_nonneg _ (proj1 (Forall_forall _ _) Hb u Hu)).
      pose proof (py_sum_qsum (map amount (snd u))). unfold capacity in *.
      qmin (py_sum (map amount (snd u))) total; lra. }
    destruct (first_fit_spec bs Hbs total H0) as [H1 [H2 [H3 H4]]].
    exists (fst (first_fit bs total)). split; [exact H1|].
    assert (Hlen : List.length (fst (first_fit bs total)) = List.length banks).
    { apply Forall2_length in H1. subst bs. now rewrite length_map in H1. }
    constructor; [|constructor].
    rewrite <- Hlen, dot_ones.
    assert (Hr : snd (first_fit bs total) == 0).
    { apply H4. pose proof (sum_min_capacity total banks Hb H0) as Hs.
      fold bs in Hs. revert Hs. qmin (total_capacity banks) total; lra. }
    lra.
Qed.

Lemma formulation_feasible_iff_witness :
  exists p,
    create_optimization_problem (simplify ex_banks) 60000 = Ok p
    /\ ((exists x, lp_feasible p x)
        <-> 0 <= 60000 /\ 60000 <= total_capacity (simplify ex_banks)).
Proof.
  eexists. split; [vm_compute; reflexivity|].
  apply (formulation_feasible_iff (simplify ex_banks) 60000).
  - repeat constructor; vm_compute; discriminate.
  - reflexivity.
Defined.

(* ------------------------------------------------------------------ *)
(** ** Accounting of the greedy allocator *)

Section DictSum.
Context {V : Type}.
Implicit Types (d : dict V) (k : string) (v : V) (f : V -> Q).

Lemma dict_set_keys_nodup k v d :
  NoDup (dict_keys d) -> NoDup (dict_keys (dict_set k v d)).
Proof.
  intro H. destruct (in_dec string_dec k (dict_keys d)) as [Hin|Hni].
  - assert (E : dict_keys (dict_set k v d) = dict_keys d).
    { clear H. induction d as [|[k' v'] d IH]; simpl in *; [contradiction|].
      destruct (String.eqb_spec k k') as [->|Hne]; simpl; [reflexivity|].
      f_equal. apply IH. destruct Hin as [Heq|Hin]; [congruence|exact Hin]. }
    now rewrite E.
  - rewrite dict_set_fresh by exact Hni. unfold dict_keys.
    rewrite map_app. simpl. apply NoDup_app_remove_l with (l := []).
    simpl. apply NoDup_Add with (a := k) (l := map fst d);
      [|constructor; assumption].
    clear. induction (map fst d) as [|a l IH]; simpl; constructor; exact IH.
Qed.

Lemma dict_set_keys_incl k v d (ks : list string) :
  In k ks -> incl (dict_keys d) ks -> incl (dict_keys (dict_set k v d)) ks.
Proof.
  intros Hk. induction d as [|[k' v'] d IH]; simpl; intros Hd.
  - intros a [<-|[]]. exact Hk.
  - destruct (String.eqb_spec k k') as [->|Hne]; simpl; [exact Hd|].
    intros a [<-|Ha].
    + apply Hd. now left.
    + apply IH; [|exact Ha]. intros b Hb. apply Hd. now right.
Qed.

Lemma dict_sum_set f k v d :
  dict_sum f (dict_set k v d)
  == dict_sum f d
     - match dict_get k d with Some o => f o | None => 0 end
     + f v.
Proof.
  unfold dict_sum.
  induction d as [|[k' v'] d IH]; simpl; [lra|].
  destruct (String.eqb k k'); simpl; [lra|].
  rewrite IH. lra.
Qed.

Lemma dict_set_forall (P : V -> Prop) k v d :
  P v -> Forall (fun kv => P (snd kv)) d ->
  Forall (fun kv => P (snd kv)) (dict_set k v d).
Proof.
  intros Hv. induction 1 as [|[k' v'] d Hk Hd IH]; simpl.
  - constructor; [exact Hv|constructor].
  - destruct (String.eqb k k'); constructor; assumption.
Qed.

Lemma dict_get_forall (P : V -> Prop) k v d :
  Forall (fun kv => P (snd kv)) d -> dict_get k d = Some v -> P v.
Proof.
  induction 1 as [|[k' v'] d Hk Hd IH]; simpl; [discriminate|].
  destruct (String.eqb k k'); [|exact IH].
  intro E. inversion E; subst. exact Hk.
Qed.
End DictSum.

Lemma empty_allocation_consistent : alloc_consistent empty_allocation.
Proof.
  unfold alloc_consistent, empty_allocation. simpl.
  repeat split; try reflexivity. constructor.
Qed.

Lemma add_to_allocation_consistent (name : string) (a r : Q)
    (allocs : dict allocation) :
  Forall (fun kv => alloc_consistent (snd kv)) allocs ->
  Forall (fun kv => alloc_consistent (snd kv))
    (add_to_allocation name a r allocs).
Proof.
  intro H. unfold add_to_allocation.
  apply dict_set_forall; [|exact H].
  assert (Hcur : alloc_consistent
                   match dict_get name allocs with
                   | Some c => c
                   | None => empty_allocation
                   end).
  { destruct (dict_get name allocs) as [c|] eqn:E.
    - exact (dict_get_forall alloc_consistent name c allocs H E).
    - exact empty_allocation_consistent. }
  destruct Hcur as [Hd [Ha [_ Hrows]]].
  unfold alloc_consistent. simpl. rewrite !map_app, !qsum_app. simpl.
  split; [lra|]. split; [lra|]. split; [reflexivity|].
  apply Forall_app. split; [exact Hrows|].
  constructor; [split; reflexivity|constructor].
Qed.

Lemma add_to_allocation_sums (name : string) (a r : Q)
    (allocs : dict allocation) :
  dict_sum deposit (add_to_allocation name a r allocs)
  == dict_sum deposit allocs + a
  /\ dict_sum annual_interest (add_to_allocation name a r allocs)
     == dict_sum annual_interest allocs + a * r.
Proof.
  unfold add_to_allocation. rewrite !dict_sum_set.
  destruct (dict_get name allocs); simpl; split; lra.
Qed.

(** The invariants of the allocation loop. *)
Lemma allocate_loop_invariants (l : list flat_tier) :
  forall rem allocs total (ks : list string),
    NoDup (dict_keys allocs) ->
    incl (dict_keys allocs) ks ->
    incl (map ft_bank l) ks ->
    Forall (fun kv => alloc_consistent (snd kv)) allocs ->
    let st := allocate_loop l rem allocs total in
    NoDup (dict_keys (fst st))
    /\ incl (dict_keys (fst st)) ks
    /\ Forall (fun kv => alloc_consistent (snd kv)) (fst st)
    /\ dict_sum annual_interest (fst st) - dict_sum annual_interest allocs
       == snd st - total.
Proof.
  induction l as [|t rest IH]; intros rem allocs total ks Hnd Hin Hl Hc;
    simpl.
  - repeat split; try assumption; lra.
  - destruct (Qle_bool rem 0); simpl.
    + repeat split; try assumption; lra.
    + set (a := Qmin rem (ft_amount t)).
      destruct (IH (rem - a) (add_to_allocation (ft_bank t) a (ft_rate t) allocs)
                  (total + a * ft_rate t) ks) as [H1 [H2 [H3 H4]]].
      * now apply dict_set_keys_nodup.
      * apply dict_set_keys_incl; [|exact Hin]. apply Hl. now left.
      * intros b Hb. apply Hl. now right.
      * now apply add_to_allocation_consistent.
      * split; [exact H1|]. split; [exact H2|]. split; [exact H3|].
        destruct (add_to_allocation_sums (ft_bank t) a (ft_rate t) allocs)
          as [_ Hs]. lra.
Qed.

Lemma allocate_loop_deposits (l : list flat_tier) :
  Forall (fun t => 0 <= ft_amount t) l ->
  forall rem allocs total,
    0 <= rem ->
    dict_sum deposit (fst (allocate_loop l rem allocs total))
    == dict_sum deposit allocs + Qmin rem (qsum (map ft_amount l)).
Proof.
  induction 1 as [|t rest Ha Hrest IH]; intros rem allocs total Hrem; simpl.
  - qmin rem 0; lra.
  - assert (Hsum : 0 <= qsum (map ft_amount rest)).
    { apply qsum_nonneg. apply Forall_forall. intros a Hin.
      apply in_map_iff in Hin. destruct Hin as [u [<- Hu]].
      exact (proj1 (Forall_forall _ _) Hrest u Hu). }
    qtest (Qle_bool rem 0); simpl.
    + qmin rem (ft_amount t + qsum (map ft_amount rest)); lra.
    + set (a := Qmin rem (ft_amount t)).
      assert (Hm : 0 <= a /\ a <= rem) by (subst a; qmin rem (ft_amount t); lra).
      rewrite IH by lra.
      destruct (add_to_allocation_sums (ft_bank t) a (ft_rate t) allocs)
        as [Hs _]. rewrite Hs. subst a.
      qmin rem (ft_amount t);
        qmin (rem - Qmin rem (ft_amount t)) (qsum (map ft_amount rest));
        qmin rem (ft_amount t + qsum (map ft_amount rest)); lra.
Qed.

Lemma flatten_tiers_banks (banks : dict (list tier)) :
  incl (map ft_bank (flatten_tiers banks)) (dict_keys banks).
Proof.
  unfold flatten_tiers.
  induction banks as [|[n ts] banks IH]; simpl; [intros a []|].
  rewrite map_app, map_map. simpl. intros a Ha.
  apply in_app_or in Ha. destruct Ha as [Ha|Ha].
  - apply in_map_iff in Ha. destruct Ha as [u [<- _]]. now left.
  - right. now apply IH.
Qed.

Lemma flatten_tiers_amounts (banks : dict (list tier)) :
  qsum (map ft_amount (flatten_tiers banks)) == total_capacity banks.
Proof.
  unfold flatten_tiers, total_capacity, capacity.
  induction banks as [|[n ts] banks IH]; simpl; [reflexivity|].
  rewrite map_app, qsum_app, IH, map_map. simpl. reflexivity.
Qed.

Lemma sort_desc_incl {A : Type} (key : A -> Q) (l : list A) :
  forall a, In a (sort_desc key l) -> In a l.
Proof.
  assert (Hins : forall x s a, In a (insert_desc key x s) -> a = x \/ In a s).
  { intros x s. induction s as [|y s IH]; simpl; intros a.
    - intros [<-|[]]. now left.
    - destruct (Qle_bool (key y) (key x)); simpl.
      + intros [<-|[<-|H]]; auto.
      + intros [<-|H]; [auto|]. destruct (IH a H); auto. }
  induction l as [|x l IH]; simpl; intros a Ha; [contradiction|].
  destruct (Hins _ _ _ Ha) as [->|H]; auto.
Qed.

Lemma simple_allocation_accounted (banks : dict (list tier)) (total : Q)
    (r : opt_result) :
  simple_allocation banks total = Ok r ->
  total_annual_interest r == dict_sum annual_interest (allocations r)
  /\ total_monthly_interest r = total_annual_interest r / 12
  /\ effective_rate r = total_annual_interest r / total * 100
  /\ chosen_salary_bank r = KeyAbsent
  /\ Forall (fun kv => alloc_consistent (snd kv)) (allocations r).
Proof.
  intro Hr.
  assert (Hnz : ~ total == 0).
  { intro H0. rewrite simple_allocation_zero in Hr by exact H0. discriminate. }
  destruct (simple_allocation_nonzero banks total Hnz) as [r' [Hr' Hdef]].
  rewrite Hr in Hr'. injection Hr' as Heq. rewrite <- Heq in Hdef.
  destruct (allocate_loop_invariants
              (sort_desc ft_rate (flatten_tiers banks)) total [] 0
              (dict_keys banks)) as [_ [_ [H3 H4]]].
  - constructor.
  - intros a [].
  - intros a Ha. apply flatten_tiers_banks.
    apply in_map_iff in Ha. destruct Ha as [u [<- Hu]].
    apply in_map. now apply sort_desc_incl in Hu.
  - constructor.
  - rewrite Hdef. simpl. split; [|repeat split; assumption].
    unfold dict_sum in H4 at 2. simpl in H4. lra.
Qed.

(** X7.  Every result of [simple_allocation] is accounted for: the
    total annual interest is the sum of the annual interests of the
    allocations, the monthly total a twelfth of it, the effective rate
    the total over the investment in percent, and every allocation
    agrees with its own breakdown (deposit and interest are the sums of
    its rows, monthly interest a twelfth of the annual). *)
Theorem simple_allocation_accounting (banks : dict (list tier)) (total : Q)
    (r : opt_result) :
  simple_allocation banks total = Ok r ->
  total_annual_interest r == dict_sum annual_interest (allocations r)
  /\ total_monthly_interest r = total_annual_interest r / 12
  /\ effective_rate r = total_annual_interest r / total * 100
  /\ chosen_salary_bank r = KeyAbsent
  /\ Forall (fun kv => alloc_consistent (snd kv)) (allocations r).
Proof.
  exact (simple_allocation_accounted banks total r).
Qed.

Lemma simple_allocation_accounting_witness :
  exists r,
    simple_allocation ex_tiered_banks 3000 = Ok r
    /\ total_annual_interest r == dict_sum annual_interest (allocations r).
Proof.
  eexists. split; [vm_compute; reflexivity|].
  apply (simple_allocation_accounting ex_tiered_banks 3000). reflexivity.
Defined.

Lemma simple_allocation_keyed (banks : dict (list tier)) (total : Q)
    (r : opt_result) :
  simple_allocation banks total = Ok r ->
  NoDup (dict_keys (allocations r))
  /\ incl (dict_keys (allocations r)) (dict_keys banks).
Proof.
  intro Hr.
  assert (Hnz : ~ total == 0).
  { intro H0. rewrite simple_allocation_zero in Hr by exact H0. discriminate. }
  destruct (simple_allocation_nonzero banks total Hnz) as [r' [Hr' Hdef]].
  rewrite Hr in Hr'. injection Hr' as Heq. rewrite <- Heq in Hdef.
  destruct (allocate_loop_invariants
              (sort_desc ft_rate (flatten_tiers banks)) total [] 0
              (dict_keys banks)) as [H1 [H2 _]].
  - constructor.
  - intros a [].
  - intros a Ha. apply flatten_tiers_banks.
    apply in_map_iff in Ha. destruct Ha as [u [<- Hu]].
    apply in_map. now apply sort_desc_incl in Hu.
  - constructor.
  - rewrite Hdef. simpl. split; assumption.
Qed.

(** X8.  The allocations of [simple_allocation] are keyed by distinct
    names, and every name is one of the accounts. *)
Theorem simple_allocation_keys (banks : dict (list tier)) (total : Q)
    (r : opt_result) :
  simple_allocation banks total = Ok r ->
  NoDup (dict_keys (allocations r))
  /\ incl (dict_keys (allocations r)) (dict_keys banks).
Proof.
  exact (simple_allocation_keyed banks total r).
Qed.

Lemma simple_allocation_keys_witness :
  exists r,
    simple_allocation ex_tiered_banks 3000 = Ok r
    /\ NoDup (dict_keys (allocations r)).
Proof.
  eexists. split; [vm_compute; reflexivity|].
  apply (simple_allocation_keys ex_tiered_banks 3000). reflexivity.
Defined.

(** X9.  With non-negative capacities and a positive investment, the
    deposits of [simple_allocation] add up to the investment when the
    accounts can hold it, and to the capacity of all accounts
    otherwise. *)
Theorem simple_allocation_conserves (banks : dict (list tier)) (total : Q) :
  banks_nonneg banks ->
  0 < total ->
  exists r,
    simple_allocation banks total = Ok r
    /\ dict_sum deposit (allocations r)
       == Qmin total (total_capacity banks).
Proof.
  intros Hb Hpos.
  destruct (simple_allocation_nonzero banks total ltac:(lra)) as [r [Hr Hdef]].
  exists r. split; [exact Hr|]. rewrite Hdef. simpl.
  rewrite allocate_loop_deposits.
  - unfold dict_sum at 1. simpl.
    rewrite (qsum_map_sort_desc ft_rate ft_amount), flatten_tiers_amounts. lra.
  - apply Forall_sort_desc. apply Forall_forall. intros u Hu.
    unfold flatten_tiers in Hu. apply in_flat_map in Hu.
    destruct Hu as [[n ts] [Hin Hu]]. apply in_map_iff in Hu.
    destruct Hu as [t [<- Ht]]. simpl.
    pose proof (proj1 (Forall_forall _ _) Hb _ Hin) as Hts. simpl in Hts.
    exact (proj2 (proj1 (Forall_forall _ _) Hts t Ht)).
  - lra.
Qed.

Lemma simple_allocation_conserves_witness :
  exists r,
    simple_allocation ex_tiered_banks 3000 = Ok r
    /\ dict_sum deposit (allocations r)
       == Qmin 3000 (total_capacity ex_tiered_banks).
Proof.
  apply (simple_allocation_conserves ex_tiered_banks 3000).
  - repeat constructor; vm_compute; discriminate.
  - reflexivity.
Defined.

Lemma simple_allocation_bounds_every_split_witness :
  exists r,
    simple_allocation ex_rising_banks 100 = Ok r
    /\ forall ds, is_split ex_rising_banks 100 ds ->
                  true_interest ex_rising_banks ds <= total_annual_interest r.
Proof.
  apply (simple_allocation_bounds_every_split ex_rising_banks 100).
  - repeat constructor; vm_compute; discriminate.
  - reflexivity.
Defined.

Lemma greedy_value_nonneg (l : list tier) :
  tiers_nonneg l -> forall R, 0 <= greedy_value R l.
Proof.
  induction 1 as [|t l [Hr Ha] _ IH]; intro R; simpl; [lra|].
  qtest (Qle_bool R 0); [lra|].
  specialize (IH (R - Qmin R (amount t))).
  assert (0 <= Qmin R (amount t) * rate t)
    by (apply Qmult_le_0_compat; [qmin R (amount t)|]; lra).
  lra.
Qed.

Lemma greedy_value_mono (l : list tier) :
  tiers_nonneg l ->
  forall R R', R <= R' -> greedy_value R l <= greedy_value R' l.
Proof.
  induction 1 as [|t l [Hr Ha] Hl IH]; intros R R' HR; simpl; [lra|].
  qtest (Qle_bool R 0).
  - qtest (Qle_bool R' 0); [lra|].
    pose proof (greedy_value_nonneg l Hl (R' - Qmin R' (amount t))).
    assert (0 <= Qmin R' (amount t) * rate t)
      by (apply Qmult_le_0_compat; [qmin R' (amount t)|]; lra).
    lra.
  - qtest (Qle_bool R' 0); [lra|].
    set (m := Qmin R (amount t)). set (m' := Qmin R' (amount t)).
    assert (Hm : m <= m' /\ R - m <= R' - m').
    { subst m m'. qmin R (amount t); qmin R' (amount t); lra. }
    destruct Hm as [Hm1 Hm2].
    specialize (IH _ _ Hm2).
    assert (m * rate t <= m' * rate t) by (apply Qmult_le_compat_r; lra).
    lra.
Qed.

(** X10.  With non-negative rates and capacities the total annual
    interest of [simple_allocation] does not decrease when the
    investment grows. *)
Theorem simple_allocation_monotone (banks : dict (list tier)) (t1 t2 : Q) :
  banks_nonneg banks ->
  0 < t1 ->
  t1 <= t2 ->
  exists r1 r2,
    simple_allocation banks t1 = Ok r1
    /\ simple_allocation banks t2 = Ok r2
    /\ total_annual_interest r1 <= total_annual_interest r2.
Proof.
  intros Hb H1 H12.
  destruct (simple_allocation_total banks t1 ltac:(lra)) as [r1 [Hr1 Hv1]].
  destruct (simple_allocation_total banks t2 ltac:(lra)) as [r2 [Hr2 Hv2]].
  exists r1, r2. split; [exact Hr1|]. split; [exact Hr2|].
  rewrite Hv1, Hv2. apply greedy_value_mono; [|exact H12].
  apply Forall_sort_desc. now apply all_tiers_nonneg.
Qed.

Lemma simple_allocation_monotone_witness :
  exists r1 r2,
    simple_allocation ex_tiered_banks 1200 = Ok r1
    /\ simple_allocation ex_tiered_banks 3000 = Ok r2
    /\ total_annual_interest r1 <= total_annual_interest r2.
Proof.
  apply (simple_allocation_monotone ex_tiered_banks 1200 3000).
  - repeat constructor; vm_compute; discriminate.
  - reflexivity.
  - vm_compute. discriminate.
Defined.

Lemma insert_desc_permutation {A : Type} (key : A -> Q) (x : A) (l : list A) :
  Permutation (x :: l) (insert_desc key x l).
Proof.
  induction l as [|y l IH]; simpl; [apply Permutation_refl|].
  destruct (Qle_bool (key y) (key x)); [apply Permutation_refl|].
  eapply Permutation_trans; [apply perm_swap|]. now apply perm_skip.
Qed.

Lemma sort_desc_permutation {A : Type} (key : A -> Q) (l : list A) :
  Permutation l (sort_desc key l).
Proof.
  induction l as [|x l IH]; simpl; [apply Permutation_refl|].
  eapply Permutation_trans; [apply perm_skip, IH|].
  apply insert_desc_permutation.
Qed.

Lemma filter_insert_desc {A : Type} (key : A -> Q) (q : Q) (x : A)
    (s : list A) :
  filter (fun t => Qeq_bool (key t) q) (insert_desc key x s)
  = if Qeq_bool (key x) q
    then x :: filter (fun t => Qeq_bool (key t) q) s
    else filter (fun t => Qeq_bool (key t) q) s.
Proof.
  induction s as [|y s IH]; simpl; [reflexivity|].
  qtest (Qle_bool (key y) (key x)); simpl; [reflexivity|].
  rewrite IH.
  destruct (Qeq_bool (key x) q) eqn:Ex; [|reflexivity].
  destruct (Qeq_bool (key y) q) eqn:Ey; [|reflexivity].
  apply Qeq_bool_iff in Ex. apply Qeq_bool_iff in Ey. lra.
Qed.

Lemma filter_sort_desc {A : Type} (key : A -> Q) (q : Q) (l : list A) :
  filter (fun t => Qeq_bool (key t) q) (sort_desc key l)
  = filter (fun t => Qeq_bool (key t) q) l.
Proof.
  induction l as [|x l IH]; simpl; [reflexivity|].
  rewrite filter_insert_desc, IH. reflexivity.
Qed.

(** X11.  The list walked by the greedy allocator holds every tier of
    every account exactly once (it is a rearrangement of the flattened
    tiers, each still tagged with its account), in an order in which the
    rate never increases; tiers of equal rate keep the order in which
    the accounts and their tiers were given, so a tie goes to the
    account listed first. *)
Theorem sorted_tiers_rearranged (banks : dict (list tier)) :
  Permutation (flatten_tiers banks) (sort_desc ft_rate (flatten_tiers banks))
  /\ descending (map as_tier (sort_desc ft_rate (flatten_tiers banks)))
  /\ (forall q,
         filter (fun t => Qeq_bool (ft_rate t) q)
           (sort_desc ft_rate (flatten_tiers banks))
         = filter (fun t => Qeq_bool (ft_rate t) q) (flatten_tiers banks))
  /\ map as_tier (flatten_tiers banks) = all_tiers banks.
Proof.
  split; [apply sort_desc_permutation|]. split; [|split].
  - rewrite (map_sort_desc ft_rate as_tier rate) by reflexivity.
    apply sort_desc_descending.
  - intro q. apply filter_sort_desc.
  - apply as_tier_flatten.
Qed.

(* ------------------------------------------------------------------ *)
(** ** Results and errors of optimize_deposits *)

Lemma accounts_have_tiers_iff (banks : dict bank_info) :
  forallb has_tier (simplify banks) = true <-> accounts_have_tiers banks.
Proof.
  unfold accounts_have_tiers.
  induction banks as [|[n info] banks IH]; simpl.
  - split; [constructor|reflexivity].
  - rewrite andb_true_iff, IH. unfold has_tier at 1. simpl.
    split.
    + intros [H1 H2]. constructor; [|exact H2]. simpl.
      destruct (tiers info); [discriminate|discriminate].
    + intro H. inversion H as [|? ? H1 H2]; subst. simpl in H1.
      split; [|exact H2]. destruct (tiers info); [contradiction|reflexivity].
Qed.

Section ResultFacts.
Variable linprog : lp_problem -> lp_report.

Lemma optimize_deposits_cases banks total r :
  optimize_deposits linprog banks total = Ok r ->
  simple_allocation (simplify banks) total = Ok r
  \/ exists p x res t,
       create_optimization_problem (simplify banks) total = Ok p
       /\ linprog p = LpDone true x
       /\ aggregate_loop (bank_names p) 0 x (simplify banks) [] 0
          = Ok (res, t)
       /\ r = mkResult res t (t / 12) (t / total * 100) KeyAbsent.
Proof.
  unfold optimize_deposits.
  destruct (create_optimization_problem (simplify banks) total) as [p|e];
    [|discriminate].
  cbn [bind].
  destruct (linprog p) as [e|success x] eqn:Hx; simpl; [now left|].
  destruct success; simpl.
  - destruct (aggregate_loop _ _ _ _ _ _) as [[res t]|e] eqn:Ha; simpl;
      [|now left].
    unfold py_div. destruct (Qeq_bool total 0); simpl; [now left|].
    intro H. inversion H; subst. right. exists p, x, res, t.
    repeat split; try reflexivity; assumption.
  - destruct (simple_allocation (simplify banks) total); simpl;
      [now left|now left].
Qed.
End ResultFacts.

Lemma optimize_deposits_zero_division
    (linprog : lp_problem -> lp_report) banks total :
  forallb has_tier (simplify banks) = true ->
  total == 0 ->
  optimize_deposits linprog banks total = Raise ZeroDivisionError.
Proof.
  intros Hall H0. unfold optimize_deposits.
  rewrite create_optimization_problem_eq, Hall. cbn [bind].
  pose proof (simple_allocation_zero (simplify banks) total H0) as Hs.
  destruct (linprog _) as [e|success x]; simpl; [exact Hs|].
  destruct success; simpl.
  - destruct (aggregate_loop _ _ _ _ _ _) as [[res t]|e]; simpl.
    + now rewrite py_div_zero.
    + exact Hs.
  - now rewrite Hs.
Qed.

(** X12.  The outcome of [optimize_deposits] is decided by the input
    alone, whatever the solver does: it raises [IndexError] when an
    account has no tier, otherwise [ZeroDivisionError] when the
    investment is 0, and otherwise returns a result; an exception of the
    solver itself never reaches the caller. *)
Theorem optimize_deposits_outcome
    (linprog : lp_problem -> lp_report) (banks : dict bank_info) (total : Q) :
  match optimize_deposits linprog banks total with
  | Ok _ => accounts_have_tiers banks /\ ~ total == 0
  | Raise e =>
      (e = IndexError /\ ~ accounts_have_tiers banks)
      \/ (e = ZeroDivisionError /\ accounts_have_tiers banks /\ total == 0)
  end.
Proof.
  destruct (forallb has_tier (simplify banks)) eqn:Hall.
  - assert (Ht : accounts_have_tiers banks)
      by now apply accounts_have_tiers_iff.
    destruct (Qeq_dec total 0) as [H0|Hnz].
    + rewrite (optimize_deposits_zero_division linprog banks total Hall H0).
      right. auto.
    + assert (H : exists r, optimize_deposits linprog banks total = Ok r)
        by (apply optimize_deposits_ok_iff; now split).
      destruct H as [r Hr]. rewrite Hr. now split.
  - unfold optimize_deposits.
    rewrite create_optimization_problem_eq, Hall. simpl.
    left. split; [reflexivity|].
    intro Ht. apply accounts_have_tiers_iff in Ht. congruence.
Qed.

Lemma aggregate_loop_length (simplified : dict (list tier))
    (names : list string) :
  forall i x acc total st,
    (i <= List.length x)%nat ->
    aggregate_loop names i x simplified acc total = Ok st ->
    (i + List.length names <= List.length x)%nat.
Proof.
  induction names as [|n names IH]; intros i x acc total st Hi H; simpl in *.
  - lia.
  - destruct (nth_error x i) as [d|] eqn:E; [|discriminate].
    assert (Hlt : (i < List.length x)%nat)
      by (apply nth_error_Some; congruence).
    destruct (Qgt_bool d (1 # 100)).
    + destruct (dict_item n simplified); simpl in H; [|discriminate].
      apply IH in H; lia.
    + apply IH in H; lia.
Qed.

Lemma solved_allocations_nodup (banks : dict (list tier)) :
  NoDup (dict_keys banks) ->
  forall x, NoDup (dict_keys (solved_allocations banks x)).
Proof.
  induction banks as [|[n ts] banks IH]; intros Hnd x; simpl; [constructor|].
  inversion Hnd as [|? ? Hni Hnd']; subst.
  destruct x as [|d x]; simpl; [constructor|].
  destruct (Qgt_bool d (1 # 100)); simpl; [|now apply IH].
  constructor; [|now apply IH].
  intro Hin. apply Hni. now apply solved_allocations_keys in Hin.
Qed.

Lemma solved_allocations_monthly (banks : dict (list tier)) :
  forall x, Forall (fun kv => monthly_interest (snd kv)
                              == annual_interest (snd kv) / 12)
              (solved_allocations banks x).
Proof.
  induction banks as [|[n ts] banks IH]; intro x; simpl; [constructor|].
  destruct x as [|d x]; [constructor|].
  destruct (Qgt_bool d (1 # 100)); [|apply IH].
  constructor; [simpl; reflexivity|apply IH].
Qed.

(** The second case of [optimize_deposits_cases], with the aggregation
    computed. *)
Lemma optimize_deposits_solved_case banks total p x res t :
  NoDup (dict_keys banks) ->
  create_optimization_problem (simplify banks) total = Ok p ->
  aggregate_loop (bank_names p) 0 x (simplify banks) [] 0 = Ok (res, t) ->
  res = solved_allocations (simplify banks) x
  /\ t == dict_sum annual_interest res.
Proof.
  intros Hnd Hp Ha.
  assert (Hnames : bank_names p = dict_keys (simplify banks)).
  { rewrite create_optimization_problem_eq in Hp.
    destruct (forallb has_tier (simplify banks)); [|discriminate].
    now inversion Hp. }
  rewrite Hnames in Ha.
  pose proof (aggregate_loop_length _ _ _ _ _ _ _ (Nat.le_0_l _) Ha) as Hlen.
  assert (Hagg := aggregate_loop_spec (simplify banks) (simplify banks)
                    [] x [] 0).
  cbn [List.length app] in Hagg. rewrite Hagg in Ha.
  - inversion Ha; subst. split; [reflexivity|].
    rewrite fold_left_Qplus. unfold dict_sum. lra.
  - now rewrite simplify_keys.
  - intros k _ [].
  - intros k ts Hin. apply dict_get_nodup; [|exact Hin].
    now rewrite simplify_keys.
  - unfold dict_keys in Hlen. rewrite length_map in Hlen. lia.
Qed.

(** X13.  Every result of [optimize_deposits], from the solver or from
    the fallback, is accounted for: the total annual interest is the sum
    of the annual interests of the allocations, the monthly total a
    twelfth of it, the effective rate the total over the investment in
    percent; the allocations are keyed by distinct names of accounts,
    each with a monthly interest of a twelfth of its annual interest;
    and the result carries no chosen salary account. *)
Theorem optimize_deposits_accounting
    (linprog : lp_problem -> lp_report) (banks : dict bank_info) (total : Q)
    (r : opt_result) :
  NoDup (dict_keys banks) ->
  optimize_deposits linprog banks total = Ok r ->
  total_annual_interest r == dict_sum annual_interest (allocations r)
  /\ total_monthly_interest r = total_annual_interest r / 12
  /\ effective_rate r = total_annual_interest r / total * 100
  /\ chosen_salary_bank r = KeyAbsent
  /\ NoDup (dict_keys (allocations r))
  /\ incl (dict_keys (allocations r)) (dict_keys banks)
  /\ Forall (fun kv => monthly_interest (snd kv)
                       == annual_interest (snd kv) / 12) (allocations r).
Proof.
  intros Hnd Hr.
  destruct (optimize_deposits_cases linprog banks total r Hr)
    as [Hs|[p [x [res [t [Hp [Hx [Ha Hdef]]]]]]]].
  - destruct (simple_allocation_accounted _ _ _ Hs) as [H1 [H2 [H3 [H4 H5]]]].
    destruct (simple_allocation_keyed _ _ _ Hs) as [H6 H7].
    rewrite simplify_keys in H7.
    repeat split; try assumption.
    eapply Forall_impl; [|exact H5]. intros kv [_ [_ [Hm _]]]. exact Hm.
  - destruct (optimize_deposits_solved_case banks total p x res t
                Hnd Hp Ha) as [Hres Ht].
    subst r. simpl. split; [exact Ht|].
    split; [reflexivity|]. split; [reflexivity|]. split; [reflexivity|].
    subst res. split; [|split].
    + apply solved_allocations_nodup. now rewrite simplify_keys.
    + intros k Hk. apply solved_allocations_keys in Hk.
      now rewrite simplify_keys in Hk.
    + apply solved_allocations_monthly.
Qed.

Lemma optimize_deposits_accounting_witness :
  exists r,
    optimize_deposits first_fit_solver ex_banks 60000 = Ok r
    /\ total_annual_interest r == dict_sum annual_interest (allocations r)
    /\ NoDup (dict_keys (allocations r)).
Proof.
  eexists. split; [vm_compute; reflexivity|].
  destruct (optimize_deposits_accounting first_fit_solver ex_banks 60000 _
              ex_banks_nodup eq_refl) as [H1 [_ [_ [_ [H5 _]]]]].
  split; assumption.
Defined.

Lemma solved_allocations_below_true (banks : dict (list tier)) :
  banks_nonneg banks ->
  forall x, dict_sum annual_interest (solved_allocations banks x)
            <= true_interest banks x.
Proof.
  unfold dict_sum.
  induction 1 as [|[n ts] banks Hts _ IH]; intro x; simpl; [lra|].
  destruct x as [|d x]; simpl; [lra|].
  specialize (IH x). simpl in Hts.
  pose proof (tier_sum_nonneg ts Hts d) as Hd.
  rewrite <- calculate_total_tier_sum in Hd.
  destruct (Qgt_bool d (1 # 100)); simpl; lra.
Qed.

Lemma feasible_vector (banks : dict (list tier)) (total : Q)
    (p : lp_problem) (x : list Q) :
  create_optimization_problem banks total = Ok p ->
  lp_feasible p x ->
  Forall (fun v => 0 <= v) x /\ qsum x == total.
Proof.
  intros Hp [Hb He].
  rewrite create_optimization_problem_eq in Hp.
  destruct (forallb has_tier banks); [|discriminate].
  inversion Hp; subst p; clear Hp.
  unfold honours_bounds, meets_equalities in *. simpl in *.
  assert (Hlen : List.length x = List.length banks).
  { apply Forall2_length in Hb. now rewrite length_map in Hb. }
  split.
  - clear He Hlen. revert x Hb.
    induction banks as [|b sb IH]; intros x H;
      inversion H as [|v b' x' sb' [Hv0 Hv] Hrest]; subst; constructor.
    + exact Hv0.
    + now apply IH.
  - inversion He as [|? ? ? ? Hdot _]; subst.
    now rewrite <- Hlen, dot_ones in Hdot.
Qed.

(** X14.  When the solver returns a vector that meets the constraints
    of the problem, the interest reported by [optimize_deposits] never
    exceeds the total of the greedy fallback on the same accounts and
    investment (rates and capacities non-negative). *)
Theorem solved_interest_below_greedy
    (linprog : lp_problem -> lp_report) (banks : dict bank_info) (total : Q)
    (p : lp_problem) (x : list Q) (r : opt_result) :
  NoDup (dict_keys banks) ->
  banks_nonneg (simplify banks) ->
  create_optimization_problem (simplify banks) total = Ok p ->
  linprog p = LpDone true x ->
  lp_feasible p x ->
  optimize_deposits linprog banks total = Ok r ->
  exists g,
    simple_allocation (simplify banks) total = Ok g
    /\ total_annual_interest r <= total_annual_interest g.
Proof.
  intros Hnd Hb Hp Hx Hf Hr.
  assert (Hnz : ~ total == 0).
  { apply (optimize_deposits_ok_iff linprog banks total). now exists r. }
  destruct (feasible_vector _ _ _ _ Hp Hf) as [Hx0 Hsum].
  destruct (simple_allocation_total (simplify banks) total Hnz)
    as [g [Hg Hv]].
  exists g. split; [exact Hg|].
  destruct (optimize_deposits_cases linprog banks total r Hr)
    as [Hs|[p' [x' [res [t [Hp' [Hx' [Ha Hdef]]]]]]]].
  - rewrite Hs in Hg. inversion Hg. lra.
  - rewrite Hp in Hp'. inversion Hp'; subst p'.
    rewrite Hx in Hx'. inversion Hx'; subst x'.
    destruct (optimize_deposits_solved_case banks total p x res t Hnd Hp Ha)
      as [Hres Ht].
    subst r. simpl. rewrite Ht, Hres, Hv.
    eapply Qle_trans; [apply solved_allocations_below_true; exact Hb|].
    apply greedy_value_bounds_split; [exact Hb|exact Hx0|lra].
Qed.

Lemma solved_interest_below_greedy_witness :
  exists r g,
    optimize_deposits first_fit_solver ex_banks 60000 = Ok r
    /\ simple_allocation (simplify ex_banks) 60000 = Ok g
    /\ total_annual_interest r <= total_annual_interest g.
Proof.
  assert (Hb : banks_nonneg (simplify ex_banks))
    by (repeat constructor; vm_compute; discriminate).
  assert (Hf : lp_feasible
                 (mkProblem [- (3 # 100); - (25 # 1000); - (1 # 100)]
                    [[1; 1; 1]] [60000]
                    [(0, Qmin (py_sum [50000]) 60000);
                     (0, Qmin (py_sum [80000]) 60000);
                     (0, Qmin (py_sum [100000]) 60000)]
                    ["A"; "B"; "C"]%string)
                 [50000; 10000; 0]).
  { split.
    - repeat constructor; vm_compute; discriminate.
    - repeat constructor. }
  destruct (solved_interest_below_greedy first_fit_solver ex_banks 60000
              _ [50000; 10000; 0] _ ex_banks_nodup Hb eq_refl eq_refl Hf
              eq_refl) as [g [Hg Hle]].
  eexists. exists g. split; [reflexivity|]. split; assumption.
Defined.

Lemma solved_allocations_deposits (banks : dict (list tier)) :
  forall x,
    Forall (fun v => 0 <= v) x ->
    List.length x = List.length banks ->
    qsum x - (1 # 100) * inject_Z (Z.of_nat (List.length banks))
    <= dict_sum deposit (solved_allocations banks x)
    /\ dict_sum deposit (solved_allocations banks x) <= qsum x.
Proof.
  unfold dict_sum.
  induction banks as [|[n ts] banks IH]; intros x Hx Hlen.
  - destruct x; [|discriminate]. simpl.
    change (inject_Z 0) with 0. split; lra.
  - destruct x as [|d x]; [discriminate|].
    inversion Hx as [|? ? Hd Hx']; subst.
    destruct (IH x Hx' ltac:(simpl in Hlen; lia)) as [H1 H2].
    cbn [List.length]. rewrite Nat2Z.inj_succ, <- Z.add_1_r, inject_Z_plus.
    change (inject_Z 1) with 1. simpl qsum. simpl solved_allocations.
    destruct (Qgt_bool d (1 # 100)) eqn:E; simpl.
    + split; lra.
    + apply Qgt_bool_false in E. split; lra.
Qed.

(** X15.  When the solver returns a vector that meets the constraints,
    the deposits reported by [optimize_deposits] add up to at most the
    investment, and fall short of it by at most 0.01 per account: the
    deposits at or below the threshold are dropped, not redistributed. *)
Theorem solved_deposits_near_investment
    (linprog : lp_problem -> lp_report) (banks : dict bank_info) (total : Q)
    (p : lp_problem) (x : list Q) (r : opt_result) :
  NoDup (dict_keys banks) ->
  create_optimization_problem (simplify banks) total = Ok p ->
  linprog p = LpDone true x ->
  lp_feasible p x ->
  optimize_deposits linprog banks total = Ok r ->
  total - (1 # 100) * inject_Z (Z.of_nat (List.length banks))
  <= dict_sum deposit (allocations r)
  /\ dict_sum deposit (allocations r) <= total.
Proof.
  intros Hnd Hp Hx Hf Hr.
  destruct (feasible_vector _ _ _ _ Hp Hf) as [Hx0 Hsum].
  assert (Hlen : List.length x = List.length (simplify banks)).
  { destruct Hf as [Hb _]. apply Forall2_length in Hb.
    rewrite create_optimization_problem_eq in Hp.
    destruct (forallb has_tier (simplify banks)); [|discriminate].
    inversion Hp; subst p. simpl in Hb. now rewrite length_map in Hb. }
  assert (Hlen' : (List.length banks <= List.length x)%nat).
  { unfold simplify in Hlen. rewrite length_map in Hlen. lia. }
  destruct (optimize_deposits_solved linprog banks total p x
              Hnd Hp Hx Hlen' r Hr) as [_ [Ha _]].
  rewrite Ha.
  destruct (solved_allocations_deposits (simplify banks) x Hx0 Hlen)
    as [H1 H2].
  unfold simplify in H1 at 1. rewrite length_map in H1. split; lra.
Qed.

Lemma solved_deposits_near_investment_witness :
  exists r,
    optimize_deposits first_fit_solver ex_banks 60000 = Ok r
    /\ dict_sum deposit (allocations r) <= 60000.
Proof.
  assert (Hf : lp_feasible
                 (mkProblem [- (3 # 100); - (25 # 1000); - (1 # 100)]
                    [[1; 1; 1]] [60000]
                    [(0, Qmin (py_sum [50000]) 60000);
                     (0, Qmin (py_sum [80000]) 60000);
                     (0, Qmin (py_sum [100000]) 60000)]
                    ["A"; "B"; "C"]%string)
                 [50000; 10000; 0]).
  { split.
    - repeat constructor; vm_compute; discriminate.
    - repeat constructor. }
  eexists. split; [vm_compute; reflexivity|].
  exact (proj2 (solved_deposits_near_investment first_fit_solver ex_banks
                  60000 _ [50000; 10000; 0] _ ex_banks_nodup eq_refl eq_refl
                  Hf eq_refl)).
Defined.

(* ------------------------------------------------------------------ *)
(** ** Results and errors of the salary search *)

Lemma aggregate_loop_keys (simplified : dict (list tier))
    (names : list string) (ks : list string) :
  incl names ks ->
  forall i x acc total res t,
    incl (dict_keys acc) ks ->
    aggregate_loop names i x simplified acc total = Ok (res, t) ->
    incl (dict_keys res) ks.
Proof.
  induction names as [|n names IH]; intros Hn i x acc total res t Hacc H;
    simpl in H.
  - inversion H; subst. exact Hacc.
  - destruct (nth_error x i) as [d|]; [|discriminate].
    assert (Hn' : incl names ks) by (intros a Ha; apply Hn; now right).
    destruct (Qgt_bool d (1 # 100)).
    + destruct (dict_item n simplified) as [ts|e]; simpl in H; [|discriminate].
      apply (IH Hn' _ _ _ _ _ _) in H; [exact H|].
      apply dict_set_keys_incl; [apply Hn; now left|exact Hacc].
    + now apply (IH Hn' _ _ _ _ _ _) in H.
Qed.

Lemma optimize_deposits_keys
    (linprog : lp_problem -> lp_report) banks total r :
  optimize_deposits linprog banks total = Ok r ->
  incl (dict_keys (allocations r)) (dict_keys banks).
Proof.
  intro Hr.
  destruct (optimize_deposits_cases linprog banks total r Hr)
    as [Hs|[p [x [res [t [Hp [Hx [Ha Hdef]]]]]]]].
  - destruct (simple_allocation_keyed _ _ _ Hs) as [_ H].
    now rewrite simplify_keys in H.
  - subst r. simpl.
    apply (aggregate_loop_keys (simplify banks) (bank_names p)
             (dict_keys banks)) in Ha; [exact Ha| |intros a []].
    rewrite create_optimization_problem_eq in Hp.
    destruct (forallb has_tier (simplify banks)); [|discriminate].
    inversion Hp; subst p. simpl.
    fold (dict_keys (simplify banks)). rewrite simplify_keys.
    apply incl_refl.
Qed.

Lemma salary_requiring_spec (banks : dict bank_info) (keys : list string) :
  incl keys (dict_keys banks) ->
  exists S,
    salary_requiring keys banks = Ok S
    /\ forall k, In k S <->
                 In k keys
                 /\ exists info, dict_get k banks = Some info
                                 /\ requires_salary info = true.
Proof.
  induction keys as [|k keys IH]; intro Hk; simpl.
  - exists []. split; [reflexivity|]. intro k. simpl. tauto.
  - destruct (dict_get_in k banks (Hk k (or_introl eq_refl))) as [info Hi].
    destruct IH as [S [HS Hiff]]; [intros a Ha; apply Hk; now right|].
    unfold dict_item. rewrite Hi. cbn [bind]. rewrite HS. cbn [bind].
    eexists. split; [reflexivity|].
    intro j. destruct (requires_salary info) eqn:Hreq.
    + simpl. rewrite Hiff. split.
      * intros [<-|[Hj Hinfo]]; [split; [now left|eauto]|].
        split; [now right|exact Hinfo].
      * intros [[<-|Hj] Hinfo]; [now left|right; now split].
    + rewrite Hiff. split.
      * intros [Hj Hinfo]. split; [now right|exact Hinfo].
      * intros [[<-|Hj] [info' [Hi' Hreq']]]; [congruence|].
        split; [exact Hj|eauto].
Qed.

Section SearchFacts.
Variable linprog : lp_problem -> lp_report.
Variable banks : dict bank_info.
Variable total : Q.

(** What the loop over the candidates returns: the stored result, or
    the re-solve of a candidate above every candidate of the list. *)
Lemma salary_loop_result (ks : list string) :
  forall best bi o,
    match best with
    | Some b => total_annual_interest b = bi
    | None => True
    end ->
    salary_loop linprog ks banks total best bi = Ok o ->
    (forall k rk, In k ks ->
                  candidate_result linprog banks total k = Ok rk ->
                  total_annual_interest rk
                  <= match o with
                     | Some r => total_annual_interest r
                     | None => bi
                     end)
    /\ match o with
       | Some r =>
           bi <= total_annual_interest r
           /\ (best = Some r
               \/ exists k rk,
                    In k ks
                    /\ candidate_result linprog banks total k = Ok rk
                    /\ r = set_chosen rk (ChosenBank k)
                    /\ bi < total_annual_interest rk)
       | None => best = None
       end.
Proof.
  unfold candidate_result.
  induction ks as [|k ks IH]; intros best bi o Hbest H; simpl in H.
  - inversion H; subst. split; [intros k rk []|].
    destruct o as [r|]; [|reflexivity].
    split; [rewrite Hbest; lra|now left].
  - destruct (optimize_deposits linprog (modified_banks_data banks k) total)
      as [rk|e] eqn:Hk; simpl in H; [|discriminate].
    destruct (Qgt_bool (total_annual_interest rk) bi) eqn:Hgt.
    + apply Qgt_bool_true in Hgt.
      apply IH in H; [|reflexivity].
      destruct H as [Hmax Hres].
      destruct o as [r|]; [|discriminate Hres]. split.
      * intros j rj [<-|Hj] Hrj.
        -- rewrite Hk in Hrj. inversion Hrj; subst rj.
           destruct Hres as [Hle _]. exact Hle.
        -- now apply (Hmax j).
      * destruct Hres as [Hle Hcase]. split; [simpl in Hle; lra|].
        right. destruct Hcase as [E|[j [rj [Hj [Hrj [Hr Hlt]]]]]].
        -- inversion E; subst r. exists k, rk.
           split; [now left|]. repeat split; assumption.
        -- exists j, rj. split; [now right|].
           split; [exact Hrj|]. split; [exact Hr|]. simpl in Hlt. lra.
    + apply Qgt_bool_false in Hgt.
      apply IH in H; [|exact Hbest].
      destruct H as [Hmax Hres]. split.
      * intros j rj [<-|Hj] Hrj.
        -- rewrite Hk in Hrj. inversion Hrj; subst rj.
           destruct o as [r|]; [|exact Hgt].
           destruct Hres as [Hle _]. lra.
        -- now apply (Hmax j).
      * destruct o as [r|]; [|exact Hres].
        destruct Hres as [Hle Hcase]. split; [exact Hle|].
        destruct Hcase as [E|[j [rj [Hj [Hrj [Hr Hlt]]]]]]; [now left|].
        right. exists j, rj. split; [now right|]. repeat split; assumption.
Qed.

Lemma salary_loop_returns (ks : list string) (r0 : opt_result) :
  optimize_deposits linprog banks total = Ok r0 ->
  forall best bi, exists o,
    salary_loop linprog ks banks total best bi = Ok o.
Proof.
  intro H0. induction ks as [|k ks IH]; intros best bi; simpl.
  - now exists best.
  - destruct (candidate_ok linprog banks total r0 k H0) as [rk Hk].
    unfold candidate_result in Hk. rewrite Hk. simpl.
    destruct (Qgt_bool (total_annual_interest rk) bi); apply IH.
Qed.
End SearchFacts.

(** X16.  [optimize_with_salary_constraint] raises exactly when the
    unconstrained run of [optimize_deposits] raises, with the same
    exception; when that run returns, the search returns too (a result
    or [None]): the lookups of the allocated names and the re-solves of
    the candidates never fail. *)
Theorem salary_search_outcome
    (linprog : lp_problem -> lp_report) (banks : dict bank_info) (total : Q) :
  match optimize_deposits linprog banks total with
  | Raise e => optimize_with_salary_constraint linprog banks total = Raise e
  | Ok _ => exists o, optimize_with_salary_constraint linprog banks total = Ok o
  end.
Proof.
  destruct (optimize_deposits linprog banks total) as [r0|e] eqn:H0.
  - unfold optimize_with_salary_constraint. rewrite H0. cbn [bind].
    destruct (salary_requiring_spec banks (dict_keys (allocations r0)))
      as [S [HS _]].
    { now apply (optimize_deposits_keys linprog banks total). }
    rewrite HS. cbn [bind].
    destruct S as [|k1 [|k2 S]]; [eauto|eauto|].
    apply (salary_loop_returns linprog banks total _ r0 H0).
  - unfold optimize_with_salary_constraint. now rewrite H0.
Qed.

(** X17.  With two or more salary accounts allocated in the
    unconstrained run, the search returns the re-solve of one of these
    candidates, tagged with it, with a positive total annual interest
    that no candidate's re-solve exceeds; or it returns [None], and then
    no candidate's re-solve has a positive total annual interest. *)
Theorem salary_search_best_or_none
    (linprog : lp_problem -> lp_report) (banks : dict bank_info) (total : Q)
    (r0 : opt_result) (S : list string) :
  optimize_deposits linprog banks total = Ok r0 ->
  salary_requiring (dict_keys (allocations r0)) banks = Ok S ->
  (2 <= List.length S)%nat ->
  exists o,
    optimize_with_salary_constraint linprog banks total = Ok o
    /\ match o with
       | Some r =>
           0 < total_annual_interest r
           /\ (exists k rk,
                  In k S
                  /\ candidate_result linprog banks total k = Ok rk
                  /\ r = set_chosen rk (ChosenBank k))
           /\ (forall j rj,
                  In j S ->
                  candidate_result linprog banks total j = Ok rj ->
                  total_annual_interest rj <= total_annual_interest r)
       | None =>
           forall j rj,
             In j S ->
             candidate_result linprog banks total j = Ok rj ->
             total_annual_interest rj <= 0
       end.
Proof.
  intros H0 HS Hlen.
  unfold optimize_with_salary_constraint. rewrite H0. cbn [bind].
  rewrite HS. cbn [bind].
  destruct (salary_loop_returns linprog banks total S r0 H0 None 0)
    as [o Ho].
  destruct (salary_loop_result linprog banks total S None 0 o I Ho)
    as [Hmax Hres].
  exists o. split.
  - destruct S as [|k1 [|k2 S']]; [simpl in Hlen; lia|simpl in Hlen; lia|].
    exact Ho.
  - destruct o as [r|]; [|exact Hmax].
    destruct Hres as [Hle [E|[k [rk [Hk [Hrk [Hr Hlt]]]]]]]; [discriminate|].
    split; [subst r; exact Hlt|]. split; [|exact Hmax].
    exists k, rk. repeat split; assumption.
Qed.

Lemma salary_search_best_or_none_witness :
  exists o,
    optimize_with_salary_constraint first_fit_solver ex_banks 60000 = Ok o
    /\ match o with
       | Some r =>
           0 < total_annual_interest r
           /\ (exists k rk,
                  In k ["A"; "B"]%string
                  /\ candidate_result first_fit_solver ex_banks 60000 k = Ok rk
                  /\ r = set_chosen rk (ChosenBank k))
           /\ (forall j rj,
                  In j ["A"; "B"]%string ->
                  candidate_result first_fit_solver ex_banks 60000 j = Ok rj ->
                  total_annual_interest rj <= total_annual_interest r)
       | None =>
           forall j rj,
             In j ["A"; "B"]%string ->
             candidate_result first_fit_solver ex_banks 60000 j = Ok rj ->
             total_annual_interest rj <= 0
       end.
Proof.
  apply (salary_search_best_or_none first_fit_solver ex_banks 60000 _
           ["A"; "B"]%string eq_refl eq_refl).
  simpl. lia.
Defined.

(** X18.  A result returned by the search always carries the key of the
    chosen salary account.  When it names an account, that account
    requires a salary credit and has an entry in the allocations of the
    unconstrained run; when it is [None], the result is the
    unconstrained one and no account with an entry in its allocations
    requires a salary credit.  (An entry need not hold money: the
    fallback allocator records a tier of capacity 0 with a deposit of
    0.) *)
Theorem salary_search_chosen_account
    (linprog : lp_problem -> lp_report) (banks : dict bank_info) (total : Q)
    (r : opt_result) :
  optimize_with_salary_constraint linprog banks total = Ok (Some r) ->
  exists r0,
    optimize_deposits linprog banks total = Ok r0
    /\ match chosen_salary_bank r with
       | KeyAbsent => False
       | ChosenNone =>
           r = set_chosen r0 ChosenNone
           /\ forall k info,
                In k (dict_keys (allocations r0)) ->
                dict_get k banks = Some info ->
                requires_salary info = false
       | ChosenBank k =>
           In k (dict_keys (allocations r0))
           /\ exists info, dict_get k banks = Some info
                           /\ requires_salary info = true
       end.
Proof.
  intro H. unfold optimize_with_salary_constraint in H.
  destruct (optimize_deposits linprog banks total) as [r0|e] eqn:H0;
    [|discriminate].
  cbn [bind] in H. exists r0. split; [reflexivity|].
  destruct (salary_requiring_spec banks (dict_keys (allocations r0)))
    as [S [HS Hiff]].
  { now apply (optimize_deposits_keys linprog banks total). }
  rewrite HS in H. cbn [bind] in H.
  destruct S as [|k1 [|k2 S']].
  - inversion H; subst r. simpl. split; [reflexivity|].
    intros k info Hk Hget.
    destruct (requires_salary info) eqn:Hreq; [|reflexivity].
    exfalso. apply (proj2 (Hiff k)). split; [exact Hk|eauto].
  - inversion H; subst r. simpl.
    apply (proj1 (Hiff k1)). now left.
  - destruct (salary_loop_result linprog banks total _ None 0 (Some r) I H)
      as [_ [_ [E|[k [rk [Hk [_ [Hr _]]]]]]]]; [discriminate|].
    subst r. simpl. apply (proj1 (Hiff k)). exact Hk.
Qed.

Lemma salary_search_chosen_account_witness :
  exists r r0,
    optimize_with_salary_constraint first_fit_solver ex_banks 60000
    = Ok (Some r)
    /\ optimize_deposits first_fit_solver ex_banks 60000 = Ok r0
    /\ chosen_salary_bank r = ChosenBank "A".
Proof.
  eexists.
  destruct (salary_search_chosen_account first_fit_solver ex_banks 60000 _
              eq_refl) as [r0 [H0 _]].
  exists r0. split; [reflexivity|]. split; [exact H0|reflexivity].
Defined.

(* ------------------------------------------------------------------ *)
(** ** The account set of a trial *)

Lemma tier_sum_zero_rates (ts : list tier) :
  forall rem, tier_sum rem (map (fun t => mkTier 0 (amount t)) ts) == 0.
Proof.
  induction ts as [|t ts IH]; intro rem; simpl; [reflexivity|].
  destruct (Qle_bool (Qmin rem (amount t)) 0); [reflexivity|].
  rewrite IH. lra.
Qed.

(** X19.  The account set built for a candidate keeps the names and
    their order.  The candidate itself and every account that requires
    no salary credit are passed unchanged; any other salary account
    keeps its capacities but earns no interest on any deposit. *)
Theorem trial_accounts (banks : dict bank_info) (k : string) :
  dict_keys (modified_banks_data banks k) = dict_keys banks
  /\ forall i name info,
       nth_error banks i = Some (name, info) ->
       exists info',
         nth_error (modified_banks_data banks k) i = Some (name, info')
         /\ if requires_salary info && negb (String.eqb name k)
            then map amount (tiers info') = map amount (tiers info)
                 /\ requires_salary info' = true
                 /\ forall d,
                      total_interest
                        (calculate_bank_interest d (tiers info')) == 0
            else info' = info.
Proof.
  split.
  - unfold dict_keys, modified_banks_data. rewrite map_map.
    apply map_ext. intros [name info].
    now destruct (requires_salary info && negb (String.eqb name k)).
  - intros i name info H. unfold modified_banks_data.
    rewrite nth_error_map, H. simpl.
    destruct (requires_salary info && negb (String.eqb name k)).
    + eexists. split; [reflexivity|]. simpl. rewrite map_map. simpl.
      split; [reflexivity|]. split; [reflexivity|].
      intro d. rewrite calculate_total_tier_sum. apply tier_sum_zero_rates.
    + eexists. split; reflexivity.
Qed.

Lemma trial_accounts_witness :
  exists info',
    nth_error (modified_banks_data ex_banks "A") 1 = Some ("B"%string, info')
    /\ forall d,
         total_interest (calculate_bank_interest d (tiers info')) == 0.
Proof.
  destruct (proj2 (trial_accounts ex_banks "A") 1%nat "B"%string
              (mkBank [mkTier (25 # 1000) 80000] true (Some [])) eq_refl)
    as [info' [Hn H]].
  exists info'. split; [exact Hn|]. exact (proj2 (proj2 H)).
Defined.

Lemma fill_with_higher_rates (l' l : list tier) :
  Forall2 (fun t' t => amount t' = amount t /\ rate t' <= rate t) l' l ->
  forall fa', map fst fa' = l' -> fill_ok fa' ->
    exists fa, map fst fa = l /\ fill_ok fa
               /\ fill_sum fa == fill_sum fa'
               /\ fill_value fa' <= fill_value fa.
Proof.
  induction 1 as [|t' t l' l [Ha Hr] _ IH]; intros fa' Hm Hok.
  - apply map_eq_nil in Hm. subst fa'. exists []. repeat split;
      try constructor; unfold fill_value; simpl; lra.
  - destruct fa' as [|[u a] fa']; [discriminate|].
    simpl in Hm. injection Hm as Hu Hm. subst u.
    inversion Hok as [|? ? [Ha0 Ha1] Hok']; subst. simpl in Ha0, Ha1.
    destruct (IH fa' eq_refl Hok') as [fa [Hm [Hfok [Hs Hv]]]].
    exists ((t, a) :: fa). split; [simpl; now rewrite Hm|].
    split; [constructor; [simpl; rewrite <- Ha; split; assumption|assumption]|].
    unfold fill_sum, fill_value in *. simpl.
    assert (a * rate t' <= a * rate t) by (apply Qmult_le_mono_l; lra).
    split; lra.
Qed.

Lemma trial_tiers_below (banks : dict bank_info) (k : string) :
  banks_nonneg (simplify banks) ->
  Forall2 (fun t' t => amount t' = amount t /\ rate t' <= rate t)
    (all_tiers (simplify (modified_banks_data banks k)))
    (all_tiers (simplify banks)).
Proof.
  unfold all_tiers.
  induction banks as [|[name info] banks IH]; intro Hb; simpl; [constructor|].
  inversion Hb as [|? ? Hts Hb']; subst. simpl in Hts.
  apply Forall2_app; [|now apply IH].
  destruct (requires_salary info && negb (String.eqb name k)); simpl.
  - clear -Hts. induction Hts as [|t ts [Hr _] _ IH]; simpl; constructor.
    + simpl. split; [reflexivity|exact Hr].
    + exact IH.
  - clear. induction (tiers info) as [|t ts IH]; constructor.
    + split; [reflexivity|apply Qle_refl].
    + exact IH.
Qed.

Lemma trial_banks_nonneg (banks : dict bank_info) (k : string) :
  banks_nonneg (simplify banks) ->
  banks_nonneg (simplify (modified_banks_data banks k)).
Proof.
  unfold banks_nonneg.
  induction banks as [|[name info] banks IH]; intro Hb; simpl; [constructor|].
  inversion Hb as [|? ? Hts Hb']; subst. simpl in Hts.
  constructor; [|now apply IH].
  destruct (requires_salary info && negb (String.eqb name k)); simpl;
    [|exact Hts].
  clear -Hts. induction Hts as [|t ts [_ Ha] _ IH]; simpl; constructor.
  - split; simpl; [apply Qle_refl|exact Ha].
  - exact IH.
Qed.

(** X20.  For the greedy allocator, reserving the salary credit for one
    account never pays: on the account set of any candidate its total
    annual interest is at most its total on the original accounts
    (rates and capacities non-negative, investment positive). *)
Theorem greedy_trial_below_unconstrained
    (banks : dict bank_info) (k : string) (total : Q) :
  banks_nonneg (simplify banks) ->
  0 < total ->
  exists g' g,
    simple_allocation (simplify (modified_banks_data banks k)) total = Ok g'
    /\ simple_allocation (simplify banks) total = Ok g
    /\ total_annual_interest g' <= total_annual_interest g.
Proof.
  intros Hb Hpos.
  destruct (simple_allocation_total
              (simplify (modified_banks_data banks k)) total ltac:(lra))
    as [g' [Hg' Hv']].
  destruct (simple_allocation_total (simplify banks) total ltac:(lra))
    as [g [Hg Hv]].
  exists g', g. split; [exact Hg'|]. split; [exact Hg|].
  rewrite Hv', Hv.
  pose proof (trial_banks_nonneg banks k Hb) as Hb'.
  assert (Hamt : Forall (fun t => 0 <= amount t)
                   (all_tiers (simplify (modified_banks_data banks k)))).
  { eapply Forall_impl; [|exact (all_tiers_nonneg _ Hb')].
    now intros t [_ Ha]. }
  destruct (greedy_value_attained _ Hamt total ltac:(lra))
    as [fa' [Hm' [Hok' [Hs' Hfv']]]].
  destruct (fill_with_higher_rates _ _ (trial_tiers_below banks k Hb)
              fa' Hm' Hok') as [fa [Hm [Hok [Hs Hle]]]].
  rewrite <- Hfv'. eapply Qle_trans; [exact Hle|].
  rewrite <- Hm. apply greedy_value_bounds_fill; [|exact Hok|lra].
  rewrite Hm. now apply all_tiers_nonneg.
Qed.

Lemma greedy_trial_below_unconstrained_witness :
  exists g' g,
    simple_allocation (simplify (modified_banks_data ex_banks "A")) 60000
    = Ok g'
    /\ simple_allocation (simplify ex_banks) 60000 = Ok g
    /\ total_annual_interest g' <= total_annual_interest g.
Proof.
  apply (greedy_trial_below_unconstrained ex_banks "A" 60000).
  - repeat constructor; vm_compute; discriminate.
  - reflexivity.
Defined.

(* ------------------------------------------------------------------ *)
(** ** Capacities and rates in the greedy allocator *)

Lemma dict_get_set {V : Type} (k k' : string) (v : V) (d : dict V) :
  dict_get k' (dict_set k v d)
  = if String.eqb k' k then Some v else dict_get k' d.
Proof.
  induction d as [|[k0 v0] d IH]; simpl.
  - destruct (String.eqb k' k); reflexivity.
  - destruct (String.eqb_spec k k0) as [->|Hne]; simpl.
    + destruct (String.eqb k' k0); reflexivity.
    + rewrite IH. destruct (String.eqb_spec k' k0) as [->|Hne'].
      * destruct (String.eqb_spec k0 k); [congruence|reflexivity].
      * reflexivity.
Qed.

Lemma add_to_allocation_deposit_of (n name : string) (a r : Q)
    (allocs : dict allocation) :
  deposit_of n (add_to_allocation name a r allocs)
  == deposit_of n allocs + (if String.eqb n name then a else 0).
Proof.
  unfold deposit_of, add_to_allocation. rewrite dict_get_set.
  destruct (String.eqb_spec n name) as [->|Hne]; simpl.
  - destruct (dict_get name allocs); simpl; lra.
  - lra.
Qed.

Lemma tagged_capacity_nonneg (n : string) (l : list flat_tier) :
  Forall (fun t => 0 <= ft_amount t) l -> 0 <= tagged_capacity n l.
Proof.
  unfold tagged_capacity.
  induction 1 as [|t l Ha _ IH]; simpl; [lra|].
  destruct (String.eqb n (ft_bank t)); lra.
Qed.

Lemma allocate_loop_deposit_of (n : string) (l : list flat_tier) :
  Forall (fun t => 0 <= ft_amount t) l ->
  forall rem allocs total,
    deposit_of n (fst (allocate_loop l rem allocs total))
    <= deposit_of n allocs + tagged_capacity n l.
Proof.
  induction 1 as [|t l Ha Hl IH]; intros rem allocs total.
  - unfold tagged_capacity. simpl. lra.
  - pose proof (tagged_capacity_nonneg n l Hl) as Hcap.
    unfold tagged_capacity in *. simpl.
    qtest (Qle_bool rem 0); simpl.
    + destruct (String.eqb n (ft_bank t)); lra.
    + set (a := Qmin rem (ft_amount t)).
      assert (Hm : 0 <= a /\ a <= ft_amount t)
        by (subst a; qmin rem (ft_amount t); lra).
      eapply Qle_trans; [apply IH|].
      rewrite add_to_allocation_deposit_of.
      destruct (String.eqb n (ft_bank t)); lra.
Qed.

Lemma tagged_capacity_flatten (n : string) (banks : dict (list tier))
    (ts : list tier) :
  NoDup (dict_keys banks) ->
  dict_get n banks = Some ts ->
  tagged_capacity n (flatten_tiers banks) == capacity ts.
Proof.
  unfold tagged_capacity, flatten_tiers, capacity.
  induction banks as [|[n0 ts0] banks IH]; intros Hnd Hget; simpl in *;
    [discriminate|].
  inversion Hnd as [|? ? Hni Hnd']; subst.
  rewrite map_app, qsum_app, map_map. simpl.
  destruct (String.eqb_spec n n0) as [->|Hne].
  - inversion Hget; subst ts0.
    assert (Hrest : qsum (map (fun t => if String.eqb n0 (ft_bank t)
                                        then ft_amount t else 0)
                            (flat_map (fun '(bank_name, ts1) =>
                               map (fun t => mkFlat bank_name (rate t) (amount t))
                                 ts1) banks)) == 0).
    { clear -Hni. induction banks as [|[n1 ts1] banks IH]; simpl;
        [reflexivity|].
      rewrite map_app, qsum_app, map_map. simpl.
      rewrite IH by (intro H; apply Hni; now right).
      destruct (String.eqb_spec n0 n1) as [->|Hne].
      - exfalso. apply Hni. now left.
      - clear. induction ts1; simpl; lra. }
    rewrite Hrest. cbv beta iota.
    change (map (fun x : tier => amount x) ts) with (map amount ts). lra.
  - rewrite (IH Hnd' Hget). cbv beta iota.
    assert (Hz : qsum (map (fun _ : tier => 0) ts0) == 0)
      by (clear; induction ts0; simpl; lra).
    rewrite Hz. lra.
Qed.

(** X21.  The greedy allocator never deposits more in an account than
    the capacity of the account (capacities non-negative, names
    distinct). *)
Theorem simple_allocation_within_capacity
    (banks : dict (list tier)) (total : Q) (r : opt_result)
    (n : string) (a : allocation) (ts : list tier) :
  banks_nonneg banks ->
  NoDup (dict_keys banks) ->
  simple_allocation banks total = Ok r ->
  dict_get n (allocations r) = Some a ->
  dict_get n banks = Some ts ->
  deposit a <= capacity ts.
Proof.
  intros Hb Hnd Hr Ha Hts.
  assert (Hnz : ~ total == 0).
  { intro H0. rewrite simple_allocation_zero in Hr by exact H0. discriminate. }
  destruct (simple_allocation_nonzero banks total Hnz) as [r' [Hr' Hdef]].
  rewrite Hr in Hr'. injection Hr' as Heq. rewrite <- Heq in Hdef.
  assert (Hamt : Forall (fun t => 0 <= ft_amount t) (flatten_tiers banks)).
  { apply Forall_forall. intros u Hu.
    unfold flatten_tiers in Hu. apply in_flat_map in Hu.
    destruct Hu as [[n' ts'] [Hin Hu]]. apply in_map_iff in Hu.
    destruct Hu as [t [<- Ht]]. simpl.
    pose proof (proj1 (Forall_forall _ _) Hb _ Hin) as Hts'. simpl in Hts'.
    exact (proj2 (proj1 (Forall_forall _ _) Hts' t Ht)). }
  pose proof (allocate_loop_deposit_of n
                (sort_desc ft_rate (flatten_tiers banks))
                (proj2 (Forall_sort_desc ft_rate _ _) Hamt) total [] 0) as H.
  rewrite Hdef in Ha. simpl in Ha.
  unfold deposit_of in H at 1. rewrite Ha in H.
  unfold deposit_of in H. simpl in H.
  unfold tagged_capacity in H. rewrite qsum_map_sort_desc in H.
  fold (tagged_capacity n (flatten_tiers banks)) in H.
  rewrite (tagged_capacity_flatten n banks ts Hnd Hts) in H. lra.
Qed.

Lemma simple_allocation_within_capacity_witness :
  exists r a,
    simple_allocation ex_tiered_banks 3000 = Ok r
    /\ dict_get "B" (allocations r) = Some a
    /\ deposit a <= capacity [mkTier (4 # 100) 1500; mkTier (1 # 100) 5000].
Proof.
  assert (Hb : banks_nonneg ex_tiered_banks)
    by (repeat constructor; vm_compute; discriminate).
  assert (Hnd : NoDup (dict_keys ex_tiered_banks))
    by (repeat constructor; simpl; intuition discriminate).
  eexists. eexists. split; [vm_compute; reflexivity|].
  split; [vm_compute; reflexivity|].
  exact (simple_allocation_within_capacity ex_tiered_banks 3000 _ "B" _ _
           Hb Hnd eq_refl eq_refl eq_refl).
Defined.

Lemma greedy_value_saturated (l : list tier) :
  tiers_nonneg l ->
  forall R, qsum (map amount l) <= R ->
    greedy_value R l == full_interest l.
Proof.
  unfold full_interest.
  induction 1 as [|t l [Hr Ha] Hl IH]; intros R HR; simpl; [reflexivity|].
  simpl in HR.
  assert (Hsum : 0 <= qsum (map amount l)).
  { apply qsum_nonneg. apply Forall_forall. intros a Hin.
    apply in_map_iff in Hin. destruct Hin as [u [<- Hu]].
    exact (proj2 (proj1 (Forall_forall _ _) Hl u Hu)). }
  qtest (Qle_bool R 0).
  - assert (Ea : amount t == 0) by lra.
    pose proof (IH 0 ltac:(lra)) as H0.
    rewrite greedy_value_nonpos in H0 by lra.
    rewrite <- H0, Ea. lra.
  - assert (Em : Qmin R (amount t) == amount t) by (apply Q.min_r; lra).
    rewrite (IH (R - Qmin R (amount t))) by lra.
    rewrite Em. reflexivity.
Qed.

Lemma all_tiers_full_interest (banks : dict (list tier)) :
  full_interest (all_tiers banks) == total_full_interest banks.
Proof.
  unfold full_interest, all_tiers, total_full_interest.
  induction banks as [|[n ts] banks IH]; simpl; [reflexivity|].
  rewrite map_app, qsum_app, IH. reflexivity.
Qed.

Lemma all_tiers_capacity (banks : dict (list tier)) :
  qsum (map amount (all_tiers banks)) == total_capacity banks.
Proof.
  unfold all_tiers, total_capacity, capacity.
  induction banks as [|[n ts] banks IH]; simpl; [reflexivity|].
  rewrite map_app, qsum_app, IH. reflexivity.
Qed.

(** X22.  When the investment is at least the capacity of all accounts
    together, the greedy allocator fills every tier and its total annual
    interest is the interest of all accounts filled to capacity
    (rates and capacities non-negative, investment positive). *)
Theorem simple_allocation_saturates (banks : dict (list tier)) (total : Q) :
  banks_nonneg banks ->
  0 < total ->
  total_capacity banks <= total ->
  exists r,
    simple_allocation banks total = Ok r
    /\ total_annual_interest r == total_full_interest banks.
Proof.
  intros Hb Hpos Hcap.
  destruct (simple_allocation_total banks total ltac:(lra)) as [r [Hr Hv]].
  exists r. split; [exact Hr|]. rewrite Hv.
  rewrite greedy_value_saturated.
  - unfold full_interest. rewrite qsum_map_sort_desc.
    apply all_tiers_full_interest.
  - apply Forall_sort_desc. now apply all_tiers_nonneg.
  - rewrite qsum_map_sort_desc, all_tiers_capacity. exact Hcap.
Qed.

Lemma simple_allocation_saturates_witness :
  exists r,
    simple_allocation ex_tiered_banks 20000 = Ok r
    /\ total_annual_interest r == total_full_interest ex_tiered_banks.
Proof.
  apply (simple_allocation_saturates ex_tiered_banks 20000).
  - repeat constructor; vm_compute; discriminate.
  - reflexivity.
  - vm_compute. discriminate.
Defined.

(** X23.  The effective rate of the greedy allocator lies between 0 and
    the best rate on offer: when no tier pays more than [r0 >= 0], the
    effective rate is at most [r0] in percent (rates and capacities
    non-negative, investment positive). *)
Theorem simple_allocation_effective_rate
    (banks : dict (list tier)) (total r0 : Q) :
  banks_nonneg banks ->
  0 <= r0 ->
  Forall (fun t => rate t <= r0) (all_tiers banks) ->
  0 < total ->
  exists r,
    simple_allocation banks total = Ok r
    /\ 0 <= effective_rate r
    /\ effective_rate r <= r0 * 100.
Proof.
  intros Hb Hr0' Hr0 Hpos.
  destruct (simple_allocation_total banks total ltac:(lra)) as [r [Hr Hv]].
  exists r. split; [exact Hr|].
  destruct (simple_allocation_accounted banks total r Hr)
    as [_ [_ [He _]]].
  pose proof (all_tiers_nonneg banks Hb) as Hn.
  assert (Hsorted : tiers_nonneg (sort_desc rate (all_tiers banks)))
    by now apply Forall_sort_desc.
  pose proof (greedy_value_nonneg _ Hsorted total) as H0.
  assert (Hup : greedy_value total (sort_desc rate (all_tiers banks))
                <= r0 * total).
  { pose proof (greedy_value_slope r0 (sort_desc rate (all_tiers banks))
                  Hr0') as Hs.
    assert (Hall : Forall (fun t => rate t <= r0 /\ 0 <= amount t)
                     (sort_desc rate (all_tiers banks))).
    { apply Forall_sort_desc. apply Forall_forall. intros t Ht. split.
      - exact (proj1 (Forall_forall _ _) Hr0 t Ht).
      - exact (proj2 (proj1 (Forall_forall _ _) Hn t Ht)). }
    specialize (Hs Hall 0 total (Qle_refl 0) ltac:(lra)).
    rewrite (greedy_value_nonpos _ 0) in Hs by lra. lra. }
  rewrite He, Hv.
  split.
  - apply Qmult_le_0_compat; [|lra].
    apply Qle_shift_div_l; [exact Hpos|lra].
  - apply Qmult_le_compat_r; [|lra].
    apply Qle_shift_div_r; [exact Hpos|exact Hup].
Qed.

Lemma simple_allocation_effective_rate_witness :
  exists r,
    simple_allocation ex_tiered_banks 3000 = Ok r
    /\ 0 <= effective_rate r
    /\ effective_rate r <= (5 # 100) * 100.
Proof.
  apply (simple_allocation_effective_rate ex_tiered_banks 3000 (5 # 100)).
  - repeat constructor; vm_compute; discriminate.
  - vm_compute. discriminate.
  - repeat constructor; vm_compute; discriminate.
  - reflexivity.
Defined.

(** X24.  On a single account with positive capacities and rates that
    do not increase, the greedy allocator and the tier evaluator agree:
    the total annual interest of [simple_allocation] is the total
    interest that [calculate_bank_interest] computes for the whole
    investment. *)
Theorem greedy_single_account (n : string) (ts : list tier) (d : Q) :
  concave_account ts ->
  0 < d ->
  exists r,
    simple_allocation [(n, ts)] d = Ok r
    /\ total_annual_interest r
       == total_interest (calculate_bank_interest d ts).
Proof.
  intros [Hpos Hdesc] Hd.
  destruct (simple_allocation_total [(n, ts)] d ltac:(lra)) as [r [Hr Hv]].
  exists r. split; [exact Hr|].
  rewrite Hv, calculate_total_tier_sum. unfold all_tiers. simpl.
  rewrite app_nil_r, (sort_desc_fixed ts Hdesc).
  symmetry. now apply tier_sum_greedy_value.
Qed.

Lemma greedy_single_account_witness :
  exists r,
    simple_allocation
      [("A"%string, [mkTier (5 # 100) 1000; mkTier (3 # 100) 2000])] 1500
    = Ok r
    /\ total_annual_interest r
       == total_interest
            (calculate_bank_interest 1500
               [mkTier (5 # 100) 1000; mkTier (3 # 100) 2000]).
Proof.
  apply (greedy_single_account "A").
  - repeat constructor; vm_compute; discriminate || reflexivity.
  - reflexivity.
Defined.
